(** * adbfs: the mount lifecycle of [cmd/adbfs/main.go] and the helpers
    exercised by [fs/util_test.go]

    The first part embeds [main], [startServer], [unmountServer],
    [handleDeviceDisconnected] and [checkValidMountpoint] as a small-step
    machine: the main goroutine and every invocation of the disconnect
    callback are threads with a program counter, one step per access to the
    process-wide variables [server], [mounted] and [unmounted], and a
    schedule picks the thread that moves next.  The second part holds the
    helpers of package [fs] that the tests call. *)

From Stdlib Require Import ZArith Lia Bool.
From stdpp Require Import base list strings pretty.

Open Scope Z_scope.

Module Lifecycle.

(** ** Data *)

(** [*fuse.Server]: the handle returned by [nodefs.MountRoot]. *)
Inductive Server : Type :=
| FuseServer (mountpoint : string).

(** Modelled from the spec: the type [fs.AtomicBool] lives in package [fs],
    whose source is not part of the tree; the spec describes an atomic
    boolean read with [Value] and written with a compare-and-swap. *)
Record AtomicBool : Type := { Value : bool }.

(** Modelled from the spec: [AtomicBool.CompareAndSwap(old, new)] stores
    [new] and reports [true] when the flag holds [old], and otherwise leaves
    the flag alone and reports [false]. *)
Definition CompareAndSwap (old new : bool) (b : AtomicBool) : bool * AtomicBool :=
  if Bool.eqb (Value b) old then (true, {| Value := new |}) else (false, b).

(** [time.Duration] counts nanoseconds. *)
Definition Duration : Type := Z.
Definition Second : Duration := 1000000000.

(** [const StartTimeout = 5 * time.Second] *)
Definition StartTimeout : Duration := 5 * Second.

(** The errors that reach [cli.Log.Fatal]. *)
Inductive error : Type :=
| ErrExternal (msg : string)
    (* returned by filepath.Abs, os.Stat, fs.NewAdbFileSystem, nodefs.MountRoot *)
| ErrUnknown
    (* errors.New("unknown error") *)
| ErrStartTimeout (d : Duration)
    (* errors.New(fmt.Sprint("server failed to start after", startTimeout)) *)
| ErrNotDirectory (path : string).
    (* errors.New(fmt.Sprint("path is not a directory:", path)) *)

(** The argument of [cli.Log.Fatalln] / [cli.Log.Fatal]. *)
Inductive FatalArg : Type :=
| FatalMsg (msg : string)
| FatalErr (e : error).

(** What the process does to the outside, in program order. *)
Inductive Event : Type :=
| EvInitialize                 (* cli.Initialize("adbfs", ...) *)
| EvLog (msg : string)         (* cli.Log.Println / Printf / Infoln / Debugln *)
| EvFatal (arg : FatalArg)     (* the message printed by cli.Log.Fatal* *)
| EvProfiler                   (* the profiling server of initializeProfiler *)
| EvNewCache                   (* fs.NewDirEntryCache *)
| EvNewFileSystem              (* fs.NewAdbFileSystem, pathfs.NewPathNodeFs *)
| EvMountRoot (path : string)  (* nodefs.MountRoot *)
| EvServe                      (* go server.Serve() *)
| EvWaitMount                  (* go server.WaitMount() *)
| EvSignalNotify               (* signal.Notify *)
| EvUnmount.                   (* server.Unmount() *)

(** How the process ended. *)
Inductive Exit : Type :=
| ExitFatal (arg : FatalArg)   (* cli.Log.Fatal*: os.Exit(1) *)
| ExitPanic (msg : string)     (* a panic nobody recovers *)
| ExitReturn.                  (* main returned *)

(** The package-level variables, the effects so far, and whether the
    process is still alive. *)
Record Shared : Type := {
  server : option Server;
  mounted : AtomicBool;
  unmounted : AtomicBool;
  trace : list Event;
  exited : option Exit
}.

Definition emit (e : Event) (s : Shared) : Shared :=
  {| server := server s; mounted := mounted s; unmounted := unmounted s;
     trace := trace s ++ [e]; exited := exited s |}.

Definition set_server (v : option Server) (s : Shared) : Shared :=
  {| server := v; mounted := mounted s; unmounted := unmounted s;
     trace := trace s; exited := exited s |}.

Definition set_mounted (b : AtomicBool) (s : Shared) : Shared :=
  {| server := server s; mounted := b; unmounted := unmounted s;
     trace := trace s; exited := exited s |}.

Definition set_unmounted (b : AtomicBool) (s : Shared) : Shared :=
  {| server := server s; mounted := mounted s; unmounted := b;
     trace := trace s; exited := exited s |}.

Definition terminate (x : Exit) (s : Shared) : Shared :=
  {| server := server s; mounted := mounted s; unmounted := unmounted s;
     trace := trace s; exited := Some x |}.

(** [cli.Log.Fatal(arg)]: print, then exit. *)
Definition fatal (arg : FatalArg) (s : Shared) : Shared :=
  terminate (ExitFatal arg) (emit (EvFatal arg) s).

(** [panic(msg)] with no [recover] anywhere in the program. *)
Definition panic (msg : string) (s : Shared) : Shared :=
  terminate (ExitPanic msg) s.

(** ** unmountServer (main.go 212-225) *)

Inductive UPc : Type :=
| U_CheckServer      (* if server == nil *)
| U_CheckMounted     (* if !mounted.Value() *)
| U_CAS              (* if unmounted.CompareAndSwap(false, true) *)
| U_LogUnmounting    (* cli.Log.Println("unmounting...") *)
| U_Unmount          (* server.Unmount() *)
| U_LogUnmounted     (* cli.Log.Println("unmounted.") *)
| U_Return.

Definition step_unmountServer (pc : UPc) (s : Shared) : UPc * Shared :=
  match pc with
  | U_CheckServer =>
      match server s with
      | None => (U_CheckServer, panic "attempted to unmount server before creating it" s)
      | Some _ => (U_CheckMounted, s)
      end
  | U_CheckMounted =>
      if negb (Value (mounted s))
      then (U_CheckMounted, panic "attempted to unmount server before mounting it" s)
      else (U_CAS, s)
  | U_CAS =>
      let (swapped, b) := CompareAndSwap false true (unmounted s) in
      if swapped then (U_LogUnmounting, set_unmounted b s) else (U_Return, set_unmounted b s)
  | U_LogUnmounting => (U_Unmount, emit (EvLog "unmounting...") s)
  | U_Unmount => (U_LogUnmounted, emit EvUnmount s)
  | U_LogUnmounted => (U_Return, emit (EvLog "unmounted.") s)
  | U_Return => (U_Return, s)
  end.

(** ** handleDeviceDisconnected (main.go 227-235) *)

Inductive HPc : Type :=
| H_CheckMounted     (* !mounted.Value() || ... *)
| H_CheckUnmounted   (* ... || unmounted.Value() *)
| H_Log              (* cli.Log.Infoln("device disconnected, unmounting...") *)
| H_Call (u : UPc)   (* unmountServer() *)
| H_Return.

Definition step_handleDeviceDisconnected (pc : HPc) (s : Shared) : HPc * Shared :=
  match pc with
  | H_CheckMounted =>
      if negb (Value (mounted s)) then (H_Return, s) else (H_CheckUnmounted, s)
  | H_CheckUnmounted =>
      if Value (unmounted s) then (H_Return, s) else (H_Log, s)
  | H_Log => (H_Call U_CheckServer, emit (EvLog "device disconnected, unmounting...") s)
  | H_Call U_Return => (H_Return, s)
  | H_Call u => let (u', s') := step_unmountServer u s in (H_Call u', s')
  | H_Return => (H_Return, s)
  end.

(** ** The environment

    What the configuration, the file system, the FUSE library and the clock
    answer: the program only reads these. *)

Record World : Type := {
  DeviceSerial : string;                      (* config.DeviceSerial *)
  Mountpoint : string;                        (* config.Mountpoint *)
  ServeDebug : bool;                          (* config.ServeDebug *)
  filepath_Abs : string -> error + string;    (* filepath.Abs *)
  os_Stat : string -> error + bool;           (* os.Stat, then info.IsDir() *)
  NewAdbFileSystem : option error;            (* the error of fs.NewAdbFileSystem *)
  MountRoot : string -> error + Server;       (* nodefs.MountRoot *)
  readyAt : option Duration;
    (* when server.WaitMount() returns, counted from the start of the
       select of startServer; None when it never does *)
  doneAt : option Duration;
    (* when server.Serve() returns; None when it never does *)
  tiebreak : nat
    (* the choice a select makes among cases that can proceed together *)
}.

(** ** checkValidMountpoint (main.go 237-248) *)

Definition checkValidMountpoint (w : World) (path : string) : option error :=
  match os_Stat w path with
  | inl err => Some err
  | inr isDir => if negb isDir then Some (ErrNotDirectory path) else None
  end.

(** ** startServer (main.go 183-210) *)

Inductive SelectCase : Type :=
| CaseReady      (* case <-serverReady *)
| CaseDone       (* case <-serverDone *)
| CaseTimeout.   (* case <-time.After(startTimeout) *)

Definition case_time (w : World) (startTimeout : Duration) (c : SelectCase)
  : option Duration :=
  match c with
  | CaseReady => readyAt w
  | CaseDone => doneAt w
  | CaseTimeout => Some startTimeout
  end.

Definition min_opt (t : option Duration) (d : Duration) : Duration :=
  match t with
  | Some x => Z.min x d
  | None => d
  end.

(** The select wakes when the first of its channels can be received from. *)
Definition wake_time (w : World) (startTimeout : Duration) : Duration :=
  min_opt (readyAt w) (min_opt (doneAt w) startTimeout).

Definition fired (t : option Duration) (now : Duration) : bool :=
  match t with
  | Some x => x <=? now
  | None => false
  end.

Definition ready_cases (w : World) (startTimeout : Duration) : list SelectCase :=
  List.filter
    (fun c => fired (case_time w startTimeout c) (wake_time w startTimeout))
    [CaseReady; CaseDone; CaseTimeout].

Definition select (w : World) (startTimeout : Duration) : SelectCase :=
  let cases := ready_cases w startTimeout in
  default CaseTimeout (cases !! Nat.modulo (tiebreak w) (length cases)).

(** The two goroutines are started, then the select decides.  [EvServe]
    stands for the goroutine that runs [server.Serve()], prints "server
    finished." and closes [serverDone]; the value returned on success is
    that channel, which the loop of main receives from. *)
Definition startServer (w : World) (startTimeout : Duration)
  : list Event * (error + unit) :=
  let spawned := [EvServe; EvWaitMount] in
  match select w startTimeout with
  | CaseReady => (spawned ++ [EvLog "server ready."], inr tt)
  | CaseDone => (spawned, inl ErrUnknown)
  | CaseTimeout => (spawned, inl (ErrStartTimeout startTimeout))
  end.

(** ** main (main.go 47-103) *)

(** [signal.Notify(signals, os.Interrupt, os.Kill)] *)
Inductive Signal : Type :=
| Interrupt
| Kill
| OtherSignal (n : nat).

(** What the select of the main loop receives. *)
Inductive LoopEvent : Type :=
| GotSignal (sig : Signal)   (* case signal := <-signals *)
| ServerDone.                (* case <-serverDone *)

Inductive MPc : Type :=
| M_Initialize                     (* cli.Initialize *)
| M_CheckSerial                    (* if config.DeviceSerial == "" *)
| M_CheckMountpoint                (* if config.Mountpoint == "" *)
| M_Abs                            (* filepath.Abs(config.Mountpoint) *)
| M_CheckValid (abs : string)      (* checkValidMountpoint(absoluteMountpoint) *)
| M_Profiler (abs : string)        (* initializeProfiler() *)
| M_Cache (abs : string)           (* initializeCache(config.CacheTtl) *)
| M_FileSystem (abs : string)      (* initializeFileSystem(...) *)
| M_MountRoot (abs : string)       (* server, _, err = nodefs.MountRoot(...) *)
| M_StartServer (abs : string)     (* startServer(StartTimeout) *)
| M_LogMounted (abs : string)      (* cli.Log.Printf("mounted %s on %s", ...) *)
| M_SetMounted                     (* mounted.CompareAndSwap(false, true) *)
| M_Notify                         (* defer unmountServer(); signal.Notify *)
| M_Select                         (* for { select { ... } } *)
| M_Deferred (u : UPc)             (* return: the deferred unmountServer() runs *)
| M_Done.

Definition emit_all (es : list Event) (s : Shared) : Shared :=
  fold_left (fun acc e => emit e acc) es s.

Definition step_main (w : World) (ev : LoopEvent) (pc : MPc) (s : Shared)
  : MPc * Shared :=
  match pc with
  | M_Initialize => (M_CheckSerial, emit EvInitialize s)
  | M_CheckSerial =>
      if String.eqb (DeviceSerial w) ""
      then (pc, fatal (FatalMsg "Device serial must be specified. Run with -h.") s)
      else (M_CheckMountpoint, s)
  | M_CheckMountpoint =>
      if String.eqb (Mountpoint w) ""
      then (pc, fatal (FatalMsg "Mountpoint must be specified. Run with -h.") s)
      else (M_Abs, s)
  | M_Abs =>
      match filepath_Abs w (Mountpoint w) with
      | inl err => (pc, fatal (FatalErr err) s)
      | inr abs => (M_CheckValid abs, s)
      end
  | M_CheckValid abs =>
      match checkValidMountpoint w abs with
      | Some err => (pc, fatal (FatalErr err) s)
      | None => (M_Profiler abs, s)
      end
  | M_Profiler abs =>
      (* its template is a constant that parses: the panic(err) after
         Parse cannot happen; a failure to listen is logged and ignored *)
      if negb (ServeDebug w) then (M_Cache abs, s) else (M_Cache abs, emit EvProfiler s)
  | M_Cache abs =>
      (M_FileSystem abs, emit EvNewCache (emit (EvLog "stat cache ttl:") s))
  | M_FileSystem abs =>
      match NewAdbFileSystem w with
      | Some err => (pc, fatal (FatalErr err) s)
      | None => (M_MountRoot abs, emit EvNewFileSystem s)
      end
  | M_MountRoot abs =>
      match MountRoot w abs with
      | inl err => (pc, fatal (FatalErr err) (set_server None (emit (EvMountRoot abs) s)))
      | inr srv => (M_StartServer abs, set_server (Some srv) (emit (EvMountRoot abs) s))
      end
  | M_StartServer abs =>
      let (events, result) := startServer w StartTimeout in
      match result with
      | inl err => (pc, fatal (FatalErr err) (emit_all events s))
      | inr _ => (M_LogMounted abs, emit_all events s)
      end
  | M_LogMounted abs =>
      (M_SetMounted,
       emit (EvLog ("mounted " +:+ DeviceSerial w +:+ " on " +:+ abs)) s)
  | M_SetMounted =>
      (M_Notify, set_mounted (snd (CompareAndSwap false true (mounted s))) s)
  | M_Notify => (M_Select, emit EvSignalNotify s)
  | M_Select =>
      match ev with
      | GotSignal sig =>
          let s1 := emit (EvLog "got signal") s in
          match sig with
          | Kill | Interrupt => (M_Deferred U_CheckServer, emit (EvLog "exiting...") s1)
          | OtherSignal _ => (M_Select, s1)
          end
      | ServerDone =>
          (M_Deferred U_CheckServer, emit (EvLog "server done channel closed.") s)
      end
  | M_Deferred U_Return => (M_Done, terminate ExitReturn s)
  | M_Deferred u => let (u', s') := step_unmountServer u s in (M_Deferred u', s')
  | M_Done => (M_Done, s)
  end.

(** ** The process: main and the callbacks, interleaved *)

Record State : Type := {
  shared : Shared;
  main : MPc;
  callbacks : list HPc   (* one entry per invocation of handleDeviceDisconnected *)
}.

Inductive Action : Type :=
| RunMain (ev : LoopEvent)   (* main moves; ev is what its select would receive *)
| Disconnect                 (* the device watcher calls the DeviceNotFoundHandler *)
| RunCallback (i : nat).     (* the i-th invocation of the callback moves *)

(** Nothing moves once the process has exited. *)
Definition step (w : World) (a : Action) (st : State) : State :=
  match exited (shared st) with
  | Some _ => st
  | None =>
      match a with
      | RunMain ev =>
          let (pc, s) := step_main w ev (main st) (shared st) in
          {| shared := s; main := pc; callbacks := callbacks st |}
      | Disconnect =>
          {| shared := shared st; main := main st;
             callbacks := callbacks st ++ [H_CheckMounted] |}
      | RunCallback i =>
          match callbacks st !! i with
          | None => st
          | Some pc =>
              let (pc', s) := step_handleDeviceDisconnected pc (shared st) in
              {| shared := s; main := main st; callbacks := <[i := pc']> (callbacks st) |}
          end
      end
  end.

Definition run (w : World) (schedule : list Action) (st : State) : State :=
  fold_left (fun acc a => step w a acc) schedule st.

(** The process at its start: the zero values of the package variables. *)
Definition boot : State :=
  {| shared := {| server := None; mounted := {| Value := false |};
                  unmounted := {| Value := false |}; trace := []; exited := None |};
     main := M_Initialize;
     callbacks := [] |}.

(** ** Observations *)

Definition is_unmount (e : Event) : bool :=
  match e with EvUnmount => true | _ => false end.

(** How many times [server.Unmount()] has been called. *)
Definition unmount_calls (s : Shared) : nat :=
  length (List.filter is_unmount (trace s)).

(** ** One call, run without interference

    A call of [unmountServer] or [handleDeviceDisconnected] that no other
    goroutine interleaves with: its steps in a row, until it returns or the
    process is gone.  The program counters it moves through are kept. *)

Fixpoint uninterrupted {Pc : Type} (one : Pc -> Shared -> Pc * Shared)
    (finished : Pc -> bool) (fuel : nat) (pc : Pc) (s : Shared)
  : list Pc * Shared :=
  match fuel with
  | O => ([], s)
  | S fuel' =>
      if finished pc then ([], s) else
      match exited s with
      | Some _ => ([], s)
      | None =>
          let (pc', s') := one pc s in
          let (visited, final) := uninterrupted one finished fuel' pc' s' in
          (pc' :: visited, final)
      end
  end.

Definition finished_u (pc : UPc) : bool :=
  match pc with U_Return => true | _ => false end.

Definition finished_h (pc : HPc) : bool :=
  match pc with H_Return => true | _ => false end.

(** The longest path through [unmountServer] has six steps, the longest
    through [handleDeviceDisconnected] three more and the return. *)
Definition unmountServer (s : Shared) : list UPc * Shared :=
  uninterrupted step_unmountServer finished_u 6 U_CheckServer s.

Definition handleDeviceDisconnected (s : Shared) : list HPc * Shared :=
  uninterrupted step_handleDeviceDisconnected finished_h 10 H_CheckMounted s.

Definition returned_u (visited : list UPc) : bool :=
  match last visited with Some U_Return => true | _ => false end.

Definition returned_h (visited : list HPc) : bool :=
  match last visited with Some H_Return => true | _ => false end.

Definition in_unmountServer (pc : HPc) : bool :=
  match pc with H_Call _ => true | _ => false end.

Definition panicked (s : Shared) : bool :=
  match exited s with Some (ExitPanic _) => true | _ => false end.

(** ** Bookkeeping for the proofs *)

(** A thread that has won the compare-and-swap and not yet called
    [server.Unmount()]. *)
Definition pending_u (u : UPc) : nat :=
  match u with U_LogUnmounting | U_Unmount => 1%nat | _ => 0%nat end.

Definition pending_h (h : HPc) : nat :=
  match h with H_Call u => pending_u u | _ => 0%nat end.

Definition pending_m (m : MPc) : nat :=
  match m with M_Deferred u => pending_u u | _ => 0%nat end.

Definition weight (f : HPc -> nat) (l : list HPc) : nat := sum_list_with f l.
Arguments weight : simpl never.

Definition pending (st : State) : nat :=
  (pending_m (main st) + weight pending_h (callbacks st))%nat.

(** A thread past the compare-and-swap of [unmountServer], or back from
    the call altogether. *)
Definition past_cas_u (u : UPc) : bool :=
  match u with U_CheckServer | U_CheckMounted | U_CAS => false | _ => true end.

Definition past_h (h : HPc) : nat :=
  match h with
  | H_Return => 1%nat
  | H_Call u => if past_cas_u u then 1%nat else 0%nat
  | _ => 0%nat
  end.

Definition past_m (m : MPc) : bool :=
  match m with
  | M_Deferred u => past_cas_u u
  | M_Done => true
  | _ => false
  end.

Definition is_return (h : HPc) : nat :=
  match h with H_Return => 1%nat | _ => 0%nat end.

(** How far main has got. *)
Definition rank (m : MPc) : nat :=
  match m with
  | M_Initialize => 0 | M_CheckSerial => 1 | M_CheckMountpoint => 2 | M_Abs => 3
  | M_CheckValid _ => 4 | M_Profiler _ => 5 | M_Cache _ => 6 | M_FileSystem _ => 7
  | M_MountRoot _ => 8 | M_StartServer _ => 9 | M_LogMounted _ => 10
  | M_SetMounted => 11 | M_Notify => 12 | M_Select => 13 | M_Deferred _ => 14
  | M_Done => 15
  end%nat.

Definition is_main (a : Action) : nat :=
  match a with RunMain _ => 1%nat | _ => 0%nat end.

(** The number of steps a schedule gives to main. *)
Definition main_steps (schedule : list Action) : nat :=
  sum_list_with is_main schedule.

(** A callback that has not read a flag yet, or that is over. *)
Definition idle_h (h : HPc) : bool :=
  match h with H_CheckMounted | H_Return => true | _ => false end.

(** The filesystem has just been mounted: [server] is set, [mounted] has
    been swapped to true, nobody has touched [unmounted], and main is about
    to wait for a signal.  Callbacks called earlier are over or have not
    looked at the flags yet. *)
Record just_mounted (st : State) : Prop := {
  jm_server : server (shared st) <> None;
  jm_mounted : Value (mounted (shared st)) = true;
  jm_unmounted : Value (unmounted (shared st)) = false;
  jm_alive : exited (shared st) = None;
  jm_calls : unmount_calls (shared st) = 0%nat;
  jm_main : main st = M_Notify;
  jm_callbacks : Forall (fun h => idle_h h = true) (callbacks st)
}.

(** Every invocation of the unmount path that began has returned. *)
Definition all_returned (st : State) : Prop :=
  Forall (fun h => h = H_Return) (callbacks st) /\
  (main st = M_Notify \/ main st = M_Select \/ main st = M_Done).

(** How often a flag changes value along a schedule. *)
Fixpoint flips (flag : State -> bool) (w : World) (schedule : list Action)
    (st : State) : nat :=
  match schedule with
  | [] => 0%nat
  | a :: rest =>
      ((if Bool.eqb (flag st) (flag (step w a st)) then 0 else 1)
       + flips flag w rest (step w a st))%nat
  end.

Definition mounted_flag (st : State) : bool := Value (mounted (shared st)).
Definition unmounted_flag (st : State) : bool := Value (unmounted (shared st)).

(** ** Invariants *)

(** Before [mounted] is swapped: main is at or before that statement,
    both flags are down, nothing was unmounted, every callback is idle,
    and the only way out was [cli.Log.Fatal], its message printed last. *)
Record unmounted_inv (st : State) : Prop := {
  ui_rank : (rank (main st) <= 11)%nat;
  ui_mounted : Value (mounted (shared st)) = false;
  ui_unmounted : Value (unmounted (shared st)) = false;
  ui_calls : unmount_calls (shared st) = 0%nat;
  ui_callbacks : Forall (fun h => idle_h h = true) (callbacks st);
  ui_exit : forall x, exited (shared st) = Some x ->
      exists arg, x = ExitFatal arg /\ last (trace (shared st)) = Some (EvFatal arg);
  ui_server : (9 <= rank (main st))%nat -> exited (shared st) = None ->
      server (shared st) <> None
}.

(** After [mounted] is swapped; [n0] callbacks were over at that time. *)
Record mounted_inv (n0 : nat) (st : State) : Prop := {
  mi_server : server (shared st) <> None;
  mi_mounted : Value (mounted (shared st)) = true;
  mi_exit : forall x, exited (shared st) = Some x -> x = ExitReturn /\ main st = M_Done;
  mi_main : (12 <= rank (main st))%nat;
  mi_count :
    (unmount_calls (shared st) + pending st)%nat
    = Nat.b2n (Value (unmounted (shared st)));
  mi_fresh : Value (unmounted (shared st)) = false ->
      past_m (main st) = false /\ weight past_h (callbacks st) = n0
}.

(** ** The conditions of the claims *)

Definition beyond (t : option Duration) (d : Duration) : Prop :=
  match t with
  | None => True
  | Some x => d < x
  end.

(** Neither [serverReady] nor [serverDone] is closed within the timeout. *)
Definition slow_start (w : World) : Prop :=
  beyond (readyAt w) StartTimeout /\ beyond (doneAt w) StartTimeout.

(** The serial is empty, or the mountpoint is empty, has no absolute
    path, does not exist or is not a directory. *)
Definition invalid_config (w : World) : Prop :=
  DeviceSerial w = "" \/
  Mountpoint w = "" \/
  (exists err, filepath_Abs w (Mountpoint w) = inl err) \/
  (exists abs, filepath_Abs w (Mountpoint w) = inr abs /\
     ((exists err, os_Stat w abs = inl err) \/ os_Stat w abs = inr false)).

(** The effects that happen before the profiler, the cache, the file
    system and the mount. *)
Definition config_event (e : Event) : bool :=
  match e with EvInitialize | EvFatal _ => true | _ => false end.

(** The effects of mounting and serving. *)
Definition mount_event (e : Event) : bool :=
  match e with
  | EvMountRoot _ | EvServe | EvWaitMount | EvUnmount => true
  | _ => false
  end.

(** What one step may do to a flag: leave it, or swap it from false to
    true. *)
Definition raised (before after : AtomicBool) : Prop :=
  after = before \/
  (Value before = false /\ after = snd (CompareAndSwap false true before)).

(** While the start is slow: main is at or before [startServer], has
    taken [n] steps if the process is alive, and if it died in
    [startServer] it died of the timeout. *)
Record slow_inv (n : nat) (st : State) : Prop := {
  si_pre : unmounted_inv st;
  si_rank : (rank (main st) <= 9)%nat;
  si_progress : exited (shared st) = None -> rank (main st) = n;
  si_reason : forall x, exited (shared st) = Some x -> rank (main st) = 9%nat ->
      x = ExitFatal (FatalErr (ErrStartTimeout StartTimeout))
}.

(** While the configuration is checked: main is at or before
    [checkValidMountpoint], has taken [n] steps if the process is alive,
    and has done nothing but initialise and print. *)
Record config_inv (w : World) (n : nat) (st : State) : Prop := {
  ci_pre : unmounted_inv st;
  ci_rank : (rank (main st) <= 4)%nat;
  ci_progress : exited (shared st) = None -> rank (main st) = n;
  ci_trace : Forall (fun e => config_event e = true) (trace (shared st));
  ci_server : server (shared st) = None;
  ci_serial : (2 <= rank (main st))%nat -> DeviceSerial w <> "";
  ci_mountpoint : (3 <= rank (main st))%nat -> Mountpoint w <> "";
  ci_abs : forall abs, main st = M_CheckValid abs ->
      filepath_Abs w (Mountpoint w) = inr abs
}.

(** ** An environment and schedules to run the machine on *)

(** A device that answers, a mountpoint that exists, a server that is
    ready after twenty milliseconds. *)
Definition pixel : World :=
  {| DeviceSerial := "emulator-5554";
     Mountpoint := "mnt";
     ServeDebug := false;
     filepath_Abs := fun p => inr ("/home/user/" +:+ p);
     os_Stat := fun _ => inr true;
     NewAdbFileSystem := None;
     MountRoot := fun p => inr (FuseServer p);
     readyAt := Some 20000000;
     doneAt := None;
     tiebreak := 0 |}.

(** The same, but the server is never ready and never done. *)
Definition stalled : World :=
  {| DeviceSerial := "emulator-5554";
     Mountpoint := "mnt";
     ServeDebug := false;
     filepath_Abs := fun p => inr ("/home/user/" +:+ p);
     os_Stat := fun _ => inr true;
     NewAdbFileSystem := None;
     MountRoot := fun p => inr (FuseServer p);
     readyAt := None;
     doneAt := None;
     tiebreak := 0 |}.

(** The same as [pixel], but the mountpoint is a regular file. *)
Definition misconfigured : World :=
  {| DeviceSerial := "emulator-5554";
     Mountpoint := "notes.txt";
     ServeDebug := false;
     filepath_Abs := fun p => inr ("/home/user/" +:+ p);
     os_Stat := fun _ => inr false;
     NewAdbFileSystem := None;
     MountRoot := fun p => inr (FuseServer p);
     readyAt := Some 20000000;
     doneAt := None;
     tiebreak := 0 |}.

(** Main alone, from its first statement to the swap of [mounted]. *)
Definition mounting : list Action := replicate 12 (RunMain ServerDone).

(** The device disappears and the user interrupts at the same moment: the
    callback wins the compare-and-swap, main loses it. *)
Definition race : list Action :=
  [Disconnect] ++ replicate 5 (RunCallback 0)
  ++ replicate 4 (RunMain (GotSignal Interrupt))
  ++ [RunCallback 0; RunMain ServerDone]
  ++ replicate 4 (RunCallback 0)
  ++ [RunMain ServerDone].

(** The same race, but main returns while the callback is still on its
    way to [server.Unmount()]. *)
Definition race_cut_short : list Action :=
  [Disconnect] ++ replicate 5 (RunCallback 0)
  ++ replicate 4 (RunMain (GotSignal Interrupt))
  ++ [RunCallback 0; RunMain ServerDone; RunMain ServerDone]
  ++ replicate 4 (RunCallback 0).

Ltac calls :=
  unfold unmount_calls, pending in *; simpl in *;
  rewrite ?List.filter_app, ?length_app in *; simpl in *.

Ltac kept :=
  let Hr := fresh "Hr" in
  intros Hr; simpl in Hr;
  first [ lia | assumption
        | match goal with H : _ -> ?P |- ?P => apply H; simpl; lia end ].

Ltac advance :=
  split; [assumption|]; split; [reflexivity|]; split; [simpl; lia|];
  split; [kept|]; split; [kept|].

(** ** Further conditions, measures and expected states *)

(** A channel closed strictly before [d]. *)
Definition closed_before (t : option Duration) (d : Duration) : Prop :=
  exists x, t = Some x /\ x < d.

(** [serverReady] is closed before the timeout and before [serverDone]. *)
Definition ready_first (w : World) (d : Duration) : Prop :=
  exists r, readyAt w = Some r /\ r < d /\ beyond (doneAt w) r.

(** [serverDone] is closed before the timeout and before [serverReady]. *)
Definition done_first (w : World) (d : Duration) : Prop :=
  exists t, doneAt w = Some t /\ t < d /\ beyond (readyAt w) t.

(** A configuration that passes every check of main; [abs] is the
    absolute mountpoint. *)
Record valid_config (w : World) (abs : string) : Prop := {
  vc_serial : DeviceSerial w <> "";
  vc_mountpoint : Mountpoint w <> "";
  vc_abs : filepath_Abs w (Mountpoint w) = inr abs;
  vc_stat : os_Stat w abs = inr true
}.

(** An environment in which every call up to the mount succeeds; [srv] is
    the server [nodefs.MountRoot] returns. *)
Record mountable (w : World) (abs : string) (srv : Server) : Prop := {
  mo_config : valid_config w abs;
  mo_fs : NewAdbFileSystem w = None;
  mo_root : MountRoot w abs = inr srv;
  mo_ready : ready_first w StartTimeout
}.

(** A schedule that runs main alone. *)
Definition alone (n : nat) : list Action := replicate n (RunMain ServerDone).

(** What the statement of rank [k] of a successful start does to the
    outside. *)
Definition startup_effects (w : World) (abs : string) (k : nat) : list Event :=
  match k with
  | 0 => [EvInitialize]
  | 5 => if negb (ServeDebug w) then [] else [EvProfiler]
  | 6 => [EvLog "stat cache ttl:"; EvNewCache]
  | 7 => [EvNewFileSystem]
  | 8 => [EvMountRoot abs]
  | 9 => [EvServe; EvWaitMount; EvLog "server ready."]
  | 10 => [EvLog ("mounted " +:+ DeviceSerial w +:+ " on " +:+ abs)]
  | _ => []
  end%nat.

(** The effects of the first [n] statements of a successful start. *)
Definition startup_trace (w : World) (abs : string) (n : nat) : list Event :=
  concat (startup_effects w abs <$> seq 0 n).

(** Where main stands after [n] statements of a successful start. *)
Definition startup_pc (abs : string) (n : nat) : MPc :=
  match n with
  | 0 => M_Initialize | 1 => M_CheckSerial | 2 => M_CheckMountpoint | 3 => M_Abs
  | 4 => M_CheckValid abs | 5 => M_Profiler abs | 6 => M_Cache abs
  | 7 => M_FileSystem abs | 8 => M_MountRoot abs | 9 => M_StartServer abs
  | 10 => M_LogMounted abs | 11 => M_SetMounted | _ => M_Notify
  end%nat.

(** The package variables and the effects after [n] statements of a
    successful start. *)
Definition startup_shared (w : World) (abs : string) (srv : Server) (n : nat)
  : Shared :=
  {| server := if (9 <=? n)%nat then Some srv else None;
     mounted := {| Value := (12 <=? n)%nat |};
     unmounted := {| Value := false |};
     trace := startup_trace w abs n;
     exited := None |}.

(** The events that end the loop of main. *)
Definition ends_loop (ev : LoopEvent) : bool :=
  match ev with
  | GotSignal (OtherSignal _) => false
  | _ => true
  end.

Definition ends_loop_action (a : Action) : bool :=
  match a with
  | RunMain ev => ends_loop ev
  | _ => true
  end.

(** How far main is on its way out, from the swap of [mounted] on. *)
Definition position (m : MPc) : nat :=
  match m with
  | M_Select => 1
  | M_Deferred U_CheckServer => 2
  | M_Deferred U_CheckMounted => 3
  | M_Deferred U_CAS => 4
  | M_Deferred U_LogUnmounting => 5
  | M_Deferred U_Unmount => 6
  | M_Deferred U_LogUnmounted => 7
  | M_Deferred U_Return => 8
  | M_Done => 9
  | _ => 0
  end%nat.

(** While [startServer] is bound to fail with [err]: main is at or before
    it, has taken [n] steps if the process is alive, and if it died there
    it died of [err]. *)
Record start_fails_inv (err : error) (n : nat) (st : State) : Prop := {
  sf_pre : unmounted_inv st;
  sf_rank : (rank (main st) <= 9)%nat;
  sf_progress : exited (shared st) = None -> rank (main st) = n;
  sf_reason : forall x, exited (shared st) = Some x -> rank (main st) = 9%nat ->
      x = ExitFatal (FatalErr err)
}.

(** On the way out: the invariant of the mounted phase, main at least
    [n] statements into its exit, and the process over exactly when main
    is. *)
Record leaving_inv (n0 n : nat) (st : State) : Prop := {
  lv_mounted : mounted_inv n0 st;
  lv_position : (Nat.min n 9 <= position (main st))%nat;
  lv_done : main st = M_Done -> exited (shared st) = Some ExitReturn
}.

(** [server.Unmount()] comes after [nodefs.MountRoot] in a trace. *)
Definition mount_before_unmount (tr : list Event) : Prop :=
  forall i, tr !! i = Some EvUnmount ->
    exists j p, (j < i)%nat /\ tr !! j = Some (EvMountRoot p).

(** The server exits within a millisecond and is never ready. *)
Definition crashing : World :=
  {| DeviceSerial := "emulator-5554";
     Mountpoint := "mnt";
     ServeDebug := false;
     filepath_Abs := fun p => inr ("/home/user/" +:+ p);
     os_Stat := fun _ => inr true;
     NewAdbFileSystem := None;
     MountRoot := fun p => inr (FuseServer p);
     readyAt := None;
     doneAt := Some 1000000;
     tiebreak := 0 |}.

(** The device comes and goes while main is still checking its
    configuration. *)
Definition early_noise : list Action :=
  [Disconnect; RunMain ServerDone; RunCallback 0; RunMain (GotSignal Interrupt);
   Disconnect; RunCallback 1; RunMain ServerDone; RunCallback 0].

(** A schedule step that does not end the loop of main: a callback, or a
    signal main was not waiting for. *)
Definition keeps_looping (a : Action) : bool :=
  match a with
  | RunMain ev => negb (ends_loop ev)
  | _ => true
  end.

(** The device disappears and nothing else happens: the callback runs to
    its end, main sees a signal that is not for it. *)
Definition disconnect_only : list Action :=
  [RunMain (GotSignal (OtherSignal 1)); Disconnect] ++ replicate 10 (RunCallback 0)
  ++ [RunMain (GotSignal (OtherSignal 1)); Disconnect; RunCallback 1; RunCallback 1].

Ltac appended :=
  match goal with
  | |- exists evs, (((?tr ++ ?a) ++ ?b) ++ ?c) ++ ?d = ?tr ++ evs /\ _ =>
      exists (a ++ b ++ c ++ d); split; [rewrite <- !app_assoc; reflexivity|]
  | |- exists evs, ((?tr ++ ?a) ++ ?b) ++ ?c = ?tr ++ evs /\ _ =>
      exists (a ++ b ++ c); split; [rewrite <- !app_assoc; reflexivity|]
  | |- exists evs, (?tr ++ ?a) ++ ?b = ?tr ++ evs /\ _ =>
      exists (a ++ b); split; [rewrite <- !app_assoc; reflexivity|]
  | |- exists evs, ?tr ++ ?a = ?tr ++ evs /\ _ =>
      exists a; split; [reflexivity|]
  | |- exists evs, ?tr = ?tr ++ evs /\ _ =>
      exists []; split; [symmetry; apply app_nil_r|]
  end.

End Lifecycle.


Module FsUtil.

(** ** The helpers of package [fs] called by [fs/util_test.go]

    [util.go] itself is not part of the tree: the three helpers below are
    written from the specification and from the calls and expectations of
    the tests. *)

Module goadb.
(** [goadb.DirEntry], the fields the test fills in and the timestamp of
    the data model. *)
Record DirEntry : Type := {
  Name : string;
  Size : Z;
  Mode : Z;
  ModifiedAt : Z
}.
End goadb.

Module fuse.
(** [fuse.DirEntry] *)
Record DirEntry : Type := {
  Name : string;
  Mode : Z
}.

(** [fuse.Status]; [fuse.OK] is zero. *)
Definition Status : Type := Z.
Definition OK : Status := 0.
Definition ENOSYS : Status := 38.
Definition Ok (code : Status) : bool := code =? OK.
End fuse.

(** Modelled from the spec: [asFuseDirEntries] is missing from the tree; a
    remote listing is translated entry by entry, in the same order, the
    name and the mode bits preserved. *)
Definition asFuseDirEntry (entry : goadb.DirEntry) : fuse.DirEntry :=
  {| fuse.Name := goadb.Name entry; fuse.Mode := goadb.Mode entry |}.

Definition asFuseDirEntries (entries : list goadb.DirEntry) : list fuse.DirEntry :=
  asFuseDirEntry <$> entries.

(** A value held in an [interface{}]. *)
Inductive Any : Type :=
| VNil
| VBool (b : bool)
| VInt (n : Z)
| VString (s : string)
| VBytes (data : list Byte.byte)
| VStatus (code : fuse.Status).

Definition is_bytes (v : Any) : bool :=
  match v with VBytes _ => true | _ => false end.

(** The placeholder that stands for a byte slice of [n] bytes in a log. *)
Definition placeholder (n : nat) : string := "[]byte(" +:+ pretty n +:+ ")".

(** Modelled from the spec: [summarizeByteSlicesForLog] is missing from the
    tree; it walks the slice it is given and overwrites, in place, every
    element that is a byte slice by its length-tagged placeholder.  The
    slice is the list, and the assignment [vals[i] = ...] a list update. *)
Fixpoint summarize_from (i count : nat) (vals : list Any) : list Any :=
  match count with
  | O => vals
  | S count' =>
      let vals' :=
        match vals !! i with
        | Some (VBytes data) => <[i := VString (placeholder (length data))]> vals
        | _ => vals
        end in
      summarize_from (S i) count' vals'
  end.

Definition summarizeByteSlicesForLog (vals : list Any) : list Any :=
  summarize_from 0 (length vals) vals.

(** What the test expects of one element. *)
Definition summary_of (v : Any) : Any :=
  match v with
  | VBytes data => VString (placeholder (length data))
  | _ => v
  end.

(** The text of a value and of a slice of values in a log field. *)
Definition render (v : Any) : string :=
  match v with
  | VNil => "<nil>"
  | VBool true => "true"
  | VBool false => "false"
  | VInt n => pretty n
  | VString s => s
  | VBytes data => placeholder (length data)
  | VStatus code => pretty code
  end.

Fixpoint join (sep : string) (parts : list string) : string :=
  match parts with
  | [] => ""
  | [p] => p
  | p :: rest => p +:+ sep +:+ join sep rest
  end.

Definition Sprint (vals : list Any) : string :=
  "[" +:+ join " " (render <$> vals) +:+ "]".

(** One structured log record. *)
Record LogEntry : Type := {
  operation : string;
  args : string;
  results : string;
  time : string
}.

(** The wall clock: the readings [time.Now()] will give, and how many have
    been taken. *)
Record Clock : Type := {
  reading : nat -> Z;
  ticks : nat
}.

Definition now (c : Clock) : Z * Clock :=
  (reading c (ticks c), {| reading := reading c; ticks := S (ticks c) |}).

Definition render_elapsed (d : Z) : string := pretty d +:+ "ns".

(** The file-operations contract ([nodefs.File]): each operation takes the
    handle's state and gives its result and the state after. *)
Class File (F : Type) : Type := {
  Read : nat -> Z -> F -> (list Byte.byte * fuse.Status) * F;
  Write : list Byte.byte -> Z -> F -> (Z * fuse.Status) * F;
  Flock : Z -> F -> fuse.Status * F;
  Flush : F -> fuse.Status * F;
  Release : F -> unit * F;
  Fsync : Z -> F -> fuse.Status * F;
  Truncate : Z -> F -> fuse.Status * F;
  Chown : Z -> Z -> F -> fuse.Status * F;
  Chmod : Z -> F -> fuse.Status * F;
  Allocate : Z -> Z -> Z -> F -> fuse.Status * F
}.

(** The decorator: the wrapped handle, the records written so far, and the
    clock it reads. *)
Record LoggingFile (F : Type) : Type := {
  wrapped : F;
  entries : list LogEntry;
  clock : Clock
}.
Arguments wrapped {F} _.
Arguments entries {F} _.
Arguments clock {F} _.

(** Modelled from the spec: the logging wrapper is missing from the tree;
    for a delegated call it reads the clock, forwards the call, reads the
    clock again and records the operation name, the summary of the
    arguments, the result and the elapsed time; it hands back what the
    wrapped call returned. *)
Definition logged {F R : Type} (name : string) (arguments : list Any)
    (show : R -> list Any) (call : F -> R * F) (lf : LoggingFile F)
  : R * LoggingFile F :=
  let (started, c1) := now (clock lf) in
  let (result, inner) := call (wrapped lf) in
  let (finished, c2) := now c1 in
  (result,
   {| wrapped := inner;
      entries := entries lf ++
        [ {| operation := name;
             args := Sprint (summarizeByteSlicesForLog arguments);
             results := Sprint (summarizeByteSlicesForLog (show result));
             time := render_elapsed (finished - started) |} ];
      clock := c2 |}).

Definition show_status (code : fuse.Status) : list Any := [VStatus code].

#[export] Instance LoggingFile_File {F : Type} `{File F} : File (LoggingFile F) := {
  Read n off :=
    logged "Read" [VInt (Z.of_nat n); VInt off]
      (fun r => [VBytes (fst r); VStatus (snd r)]) (Read n off);
  Write data off :=
    logged "Write" [VBytes data; VInt off]
      (fun r => [VInt (fst r); VStatus (snd r)]) (Write data off);
  Flock flags := logged "Flock" [VInt flags] show_status (Flock flags);
  Flush := logged "Flush" [] show_status Flush;
  Release := logged "Release" [] (fun _ => []) Release;
  Fsync flags := logged "Fsync" [VInt flags] show_status (Fsync flags);
  Truncate size := logged "Truncate" [VInt size] show_status (Truncate size);
  Chown uid gid := logged "Chown" [VInt uid; VInt gid] show_status (Chown uid gid);
  Chmod perms := logged "Chmod" [VInt perms] show_status (Chmod perms);
  Allocate off size mode :=
    logged "Allocate" [VInt off; VInt size; VInt mode] show_status (Allocate off size mode)
}.

(** Modelled from the spec: [newLoggingFile(file, log)] wraps a handle; the
    logger starts with nothing written. *)
Definition newLoggingFile {F : Type} (file : F) (c : Clock) : LoggingFile F :=
  {| wrapped := file; entries := []; clock := c |}.

(** The handle of the test, [nodefs.NewDataFile(data)]: an in-memory
    read-only file whose other operations are the library defaults and
    answer [ENOSYS]. *)
Record DataFile : Type := { data : list Byte.byte }.

#[export] Instance DataFile_File : File DataFile := {
  Read n off f :=
    ((take n (drop (Z.to_nat off) (data f)), fuse.OK), f);
  Write _ _ f := ((0, fuse.ENOSYS), f);
  Flock _ f := (fuse.ENOSYS, f);
  Flush f := (fuse.OK, f);
  Release f := (tt, f);
  Fsync _ f := (fuse.ENOSYS, f);
  Truncate _ f := (fuse.ENOSYS, f);
  Chown _ _ f := (fuse.ENOSYS, f);
  Chmod _ f := (fuse.ENOSYS, f);
  Allocate _ _ _ f := (fuse.ENOSYS, f)
}.

(** The listing of [TestAsFuseDirEntriesNoErr]; 0444 is octal. *)
Definition foo_txt : goadb.DirEntry :=
  {| goadb.Name := "/foo.txt"; goadb.Size := 24; goadb.Mode := 292; goadb.ModifiedAt := 0 |}.
Definition bar_txt : goadb.DirEntry :=
  {| goadb.Name := "/bar.txt"; goadb.Size := 42; goadb.Mode := 292; goadb.ModifiedAt := 0 |}.

End FsUtil.

(** * Proofs: the lifecycle *)

Import Lifecycle.

Section Bookkeeping.

Lemma weight_cons (f : HPc -> nat) (h : HPc) (t : list HPc) :
  weight f (h :: t) = (f h + weight f t)%nat.
Proof. reflexivity. Qed.

Lemma weight_app (f : HPc -> nat) (l1 l2 : list HPc) :
  weight f (l1 ++ l2) = (weight f l1 + weight f l2)%nat.
Proof.
  induction l1 as [|h t IH]; [reflexivity|].
  rewrite <- app_comm_cons, !weight_cons. lia.
Qed.

Lemma weight_insert (f : HPc -> nat) (l : list HPc) (i : nat) (old new : HPc) :
  l !! i = Some old ->
  (weight f (<[i := new]> l) + f old)%nat = (weight f l + f new)%nat.
Proof.
  revert i. induction l as [|h t IH]; intros [|i] Hi; simpl in *; try discriminate.
  - injection Hi as ->. rewrite !weight_cons. lia.
  - specialize (IH i Hi). rewrite !weight_cons. lia.
Qed.

Lemma weight_le (f g : HPc -> nat) (l : list HPc) :
  (forall h, (f h <= g h)%nat) -> (weight f l <= weight g l)%nat.
Proof.
  intros Hfg. induction l as [|h t IH]; [reflexivity|].
  rewrite !weight_cons. specialize (Hfg h). lia.
Qed.

Lemma weight_all_returned (l : list HPc) :
  Forall (fun h => h = H_Return) l -> weight is_return l = length l.
Proof.
  induction 1 as [|h t Hh _ IH]; [reflexivity|].
  subst h. rewrite weight_cons. simpl. lia.
Qed.

Lemma weight_zero (f : HPc -> nat) (l : list HPc) :
  Forall (fun h => f h = 0%nat) l -> weight f l = 0%nat.
Proof.
  induction 1 as [|h t Hh _ IH]; [reflexivity|].
  rewrite weight_cons. simpl in Hh. lia.
Qed.

Lemma run_cons (w : World) (a : Action) (schedule : list Action) (st : State) :
  run w (a :: schedule) st = run w schedule (step w a st).
Proof. reflexivity. Qed.

Lemma run_snoc (w : World) (a : Action) (schedule : list Action) (st : State) :
  run w (schedule ++ [a]) st = step w a (run w schedule st).
Proof. unfold run. rewrite fold_left_app. reflexivity. Qed.

Lemma step_exited (w : World) (a : Action) (st : State) (x : Exit) :
  exited (shared st) = Some x -> step w a st = st.
Proof. intros Hx. unfold step. rewrite Hx. reflexivity. Qed.

End Bookkeeping.

Section Mounted.

Lemma mounted_inv_main (w : World) (ev : LoopEvent) (n0 : nat) (st : State) :
  exited (shared st) = None ->
  mounted_inv n0 st ->
  mounted_inv n0
    {| shared := snd (step_main w ev (main st) (shared st));
       main := fst (step_main w ev (main st) (shared st));
       callbacks := callbacks st |}.
Proof.
  destruct st as [[srv [mv] [uv] tr ex] mpc cbs].
  intros Halive [Hsrv Hm Hex Hmain Hcount Hfresh]; simpl in *. subst mv ex.
  destruct mpc as [| | | | | | | | | | | | | | u |]; simpl in Hmain; try lia.
  - (* M_Notify *)
    split; simpl; auto; try lia; try discriminate. calls. lia.
  - (* M_Select *)
    destruct ev as [[| |n]|]; split; simpl; auto; try lia; try discriminate;
      calls; lia.
  - (* M_Deferred *)
    destruct u; simpl.
    + destruct srv; [|congruence]. split; simpl; auto; try discriminate.
    + split; simpl; auto; try discriminate.
    + destruct uv; split; simpl in *; auto; try discriminate; calls; try lia.
    + split; simpl in *; auto; try discriminate; calls; try lia.
    + split; simpl in *; auto; try discriminate; calls; try lia.
    + split; simpl in *; auto; try discriminate; calls; try lia.
    + split; simpl in *; auto; try discriminate; calls; try lia.
      intros x [= <-]. auto.
  - (* M_Done *)
    split; simpl; auto.
Qed.

Lemma weight_lookup_le (f : HPc -> nat) (l : list HPc) (i : nat) (h : HPc) :
  l !! i = Some h -> (f h <= weight f l)%nat.
Proof.
  revert i. induction l as [|x t IH]; intros [|i] Hi; simpl in *; try discriminate.
  - injection Hi as ->. rewrite weight_cons. lia.
  - specialize (IH i Hi). rewrite weight_cons. lia.
Qed.

Lemma mounted_inv_callback (n0 i : nat) (pc : HPc) (st : State) :
  exited (shared st) = None ->
  callbacks st !! i = Some pc ->
  mounted_inv n0 st ->
  mounted_inv n0
    {| shared := snd (step_handleDeviceDisconnected pc (shared st));
       main := main st;
       callbacks := <[i := fst (step_handleDeviceDisconnected pc (shared st))]> (callbacks st) |}.
Proof.
  destruct st as [[srv [mv] [uv] tr ex] mpc cbs].
  intros Halive Hi [Hsrv Hm Hex Hmain Hcount Hfresh]; simpl in *. subst mv ex.
  assert (Hpend : forall pc', (weight pending_h (<[i := pc']> cbs) + pending_h pc)%nat
                    = (weight pending_h cbs + pending_h pc')%nat)
    by (intros; apply weight_insert; assumption).
  assert (Hpast : forall pc', (weight past_h (<[i := pc']> cbs) + past_h pc)%nat
                    = (weight past_h cbs + past_h pc')%nat)
    by (intros; apply weight_insert; assumption).
  pose proof (weight_lookup_le pending_h cbs i pc Hi) as Hle.
  destruct pc as [| | | u |]; simpl;
    [ | destruct uv | | destruct u; [ destruct srv; [|congruence] | | destruct uv | | | | ] | ];
    simpl;
    match goal with
    | |- mounted_inv _ {| callbacks := <[_ := ?pc']> _ |} =>
        specialize (Hpend pc'); specialize (Hpast pc')
    end;
    split; simpl in *; auto; calls; try lia; try discriminate;
    intros Hu;
    first [ destruct (Hfresh Hu); split; [assumption | lia]
          | subst uv; simpl in *; lia ].
Qed.

End Mounted.

Section Phases.

Lemma mounted_inv_step (w : World) (a : Action) (n0 : nat) (st : State) :
  mounted_inv n0 st -> mounted_inv n0 (step w a st).
Proof.
  intros Hinv. unfold step.
  destruct (exited (shared st)) as [x|] eqn:Halive; [assumption|].
  destruct a as [ev| |i].
  - pose proof (mounted_inv_main w ev n0 st Halive Hinv) as H.
    destruct (step_main w ev (main st) (shared st)); exact H.
  - destruct Hinv as [Hsrv Hm Hex Hmain Hcount Hfresh].
    split; simpl; auto.
    + unfold pending in *. simpl. rewrite weight_app. simpl.
      unfold weight at 2. simpl. lia.
    + intros Hu. destruct (Hfresh Hu) as [Hp Hw]. split; [assumption|].
      rewrite weight_app. unfold weight at 2. simpl. lia.
  - destruct (callbacks st !! i) as [pc|] eqn:Hi; [|assumption].
    pose proof (mounted_inv_callback n0 i pc st Halive Hi Hinv) as H.
    destruct (step_handleDeviceDisconnected pc (shared st)); exact H.
Qed.

Lemma mounted_inv_run (w : World) (schedule : list Action) (n0 : nat) (st : State) :
  mounted_inv n0 st -> mounted_inv n0 (run w schedule st).
Proof.
  revert st. induction schedule as [|a rest IH]; intros st Hinv; [assumption|].
  rewrite run_cons. apply IH, mounted_inv_step, Hinv.
Qed.

Lemma idle_no_pending (l : list HPc) :
  Forall (fun h => idle_h h = true) l -> weight pending_h l = 0%nat.
Proof.
  intros Hl. apply weight_zero. eapply Forall_impl; [exact Hl|].
  intros [| | | |]; simpl; congruence.
Qed.

Lemma idle_past (l : list HPc) :
  Forall (fun h => idle_h h = true) l -> weight past_h l = weight is_return l.
Proof.
  induction 1 as [|h t Hh _ IH]; [reflexivity|].
  rewrite !weight_cons, IH. destruct h; simpl in *; congruence.
Qed.

Lemma just_mounted_inv (st : State) :
  just_mounted st -> mounted_inv (weight is_return (callbacks st)) st.
Proof.
  intros [Hsrv Hm Hu Halive Hcalls Hmain Hcbs].
  split; auto.
  - rewrite Halive. discriminate.
  - rewrite Hmain. simpl. lia.
  - unfold pending. rewrite Hcalls, Hmain, Hu, idle_no_pending by assumption.
    reflexivity.
  - intros _. rewrite Hmain. split; [reflexivity|]. apply idle_past, Hcbs.
Qed.

Lemma unmounted_inv_step (w : World) (a : Action) (st : State) :
  unmounted_inv st ->
  unmounted_inv (step w a st) \/ just_mounted (step w a st).
Proof.
  intros Hinv. unfold step.
  destruct (exited (shared st)) as [x|] eqn:Halive; [left; assumption|].
  destruct st as [[srv [mv] [uv] tr ex] mpc cbs].
  destruct Hinv as [Hrank Hm Hu Hcalls Hcbs Hex Hsrv]; simpl in *. subst mv uv ex.
  destruct a as [ev| |i]; simpl.
  - destruct mpc; simpl in Hrank; try lia; simpl;
      repeat match goal with
      | |- context [String.eqb ?a ?b] => destruct (String.eqb a b)
      | |- context [filepath_Abs ?w ?p] => destruct (filepath_Abs w p)
      | |- context [checkValidMountpoint ?w ?p] => destruct (checkValidMountpoint w p)
      | |- context [NewAdbFileSystem ?w] => destruct (NewAdbFileSystem w)
      | |- context [MountRoot ?w ?p] => destruct (MountRoot w p)
      | |- context [negb (ServeDebug ?w)] => destruct (ServeDebug w)
      | |- context [startServer ?w ?d] => unfold startServer; destruct (select w d)
      end; simpl;
      first
        [ right; split; simpl; auto; calls; try lia; try congruence;
          apply Hsrv; [lia | reflexivity]
        | left; split; simpl; auto; calls; try lia; try congruence;
          try (intros x [= <-]; eexists; split; [reflexivity|];
               rewrite ?app_assoc; apply last_snoc);
          try (intros; apply Hsrv; [lia | reflexivity]) ].
  - left. split; simpl; auto. apply Forall_app. split; [assumption|].
    constructor; [reflexivity | constructor].
  - destruct (cbs !! i) as [pc|] eqn:Hi; [|left; split; simpl; auto].
    pose proof (Forall_lookup_1 _ _ _ _ Hcbs Hi) as Hidle.
    destruct pc; simpl in Hidle; try discriminate; simpl;
      left; split; simpl; auto; apply Forall_insert; auto.
Qed.

End Phases.

Section Reachable.

Lemma boot_unmounted_inv : unmounted_inv boot.
Proof.
  split; simpl; auto; try lia; try discriminate.
Qed.

(** Every state the process can be in lies in one of the two phases. *)
Lemma boot_phases (w : World) (schedule : list Action) :
  unmounted_inv (run w schedule boot) \/
  exists n0, mounted_inv n0 (run w schedule boot).
Proof.
  induction schedule as [|a rest IH] using rev_ind.
  - left. apply boot_unmounted_inv.
  - rewrite run_snoc. destruct IH as [Hpre | [n0 Hpost]].
    + destruct (unmounted_inv_step w a _ Hpre) as [H | H]; [left; assumption|].
      right. eexists. apply just_mounted_inv, H.
    + right. exists n0. apply mounted_inv_step, Hpost.
Qed.

Lemma mounted_inv_calls (n0 : nat) (st : State) :
  mounted_inv n0 st -> (unmount_calls (shared st) <= 1)%nat.
Proof.
  intros [_ _ _ _ Hcount _]. destruct (Value (unmounted (shared st))); simpl in *; lia.
Qed.

Lemma mounted_inv_no_panic (n0 : nat) (st : State) :
  mounted_inv n0 st -> panicked (shared st) = false.
Proof.
  intros [_ _ Hex _ _ _]. unfold panicked.
  destruct (exited (shared st)) as [x|]; [|reflexivity].
  destruct (Hex x eq_refl) as [-> _]. reflexivity.
Qed.

Lemma unmounted_inv_no_panic (st : State) :
  unmounted_inv st -> panicked (shared st) = false.
Proof.
  intros [_ _ _ _ _ Hex _]. unfold panicked.
  destruct (exited (shared st)) as [x|]; [|reflexivity].
  destruct (Hex x eq_refl) as [arg [-> _]]. reflexivity.
Qed.

Lemma cas_loses (s : Shared) :
  Value (unmounted s) = true -> step_unmountServer U_CAS s = (U_Return, s).
Proof. destruct s as [srv m [[|]] tr ex]; simpl; [reflexivity | discriminate]. Qed.

Lemma cas_wins (s : Shared) :
  Value (unmounted s) = false ->
  step_unmountServer U_CAS s = (U_LogUnmounting, set_unmounted {| Value := true |} s).
Proof. destruct s as [srv m [[|]] tr ex]; simpl; [discriminate | reflexivity]. Qed.

End Reachable.

(** C1, amended. Once the filesystem is mounted, whatever the triggers of
    the unmount path (the deferred call of main after a signal or after the
    server is done, the disconnect callback) and however their steps
    interleave: [server.Unmount()] is called at most once, the calls made
    and the threads that won the compare-and-swap and are about to call it
    add up to the value of [unmounted], nobody panics, and when every
    invocation has returned and there was one, the call was made exactly
    once.  At the compare-and-swap itself, a thread that finds the flag set
    returns with nothing changed, and one that finds it clear sets it and
    goes on to unmount. *)
Theorem unmount_exactly_once (w : World) (schedule : list Action) (st0 : State) :
  just_mounted st0 ->
  let st := run w schedule st0 in
  (unmount_calls (shared st) <= 1)%nat /\
  (unmount_calls (shared st) + pending st)%nat
    = Nat.b2n (Value (unmounted (shared st))) /\
  panicked (shared st) = false /\
  (all_returned st ->
   main st = M_Done \/ (weight is_return (callbacks st0) < length (callbacks st))%nat ->
   unmount_calls (shared st) = 1%nat) /\
  (forall s, Value (unmounted s) = true ->
     step_unmountServer U_CAS s = (U_Return, s)) /\
  (forall s, Value (unmounted s) = false ->
     step_unmountServer U_CAS s
     = (U_LogUnmounting, set_unmounted {| Value := true |} s)).
Proof.
  intros Hjm st.
  pose proof (mounted_inv_run w schedule _ st0 (just_mounted_inv st0 Hjm)) as Hinv.
  fold st in Hinv.
  split; [eapply mounted_inv_calls, Hinv|].
  split; [apply Hinv|].
  split; [eapply mounted_inv_no_panic, Hinv|].
  split; [|split; [exact cas_loses | exact cas_wins]].
  intros [Hcbs Hmain] Hsome.
  destruct Hinv as [_ _ _ _ Hcount Hfresh].
  assert (Hpend : pending st = 0%nat).
  { unfold pending. rewrite weight_zero.
    - destruct Hmain as [-> | [-> | ->]]; reflexivity.
    - eapply Forall_impl; [exact Hcbs|]. intros h ->. reflexivity. }
  destruct (Value (unmounted (shared st))) eqn:Hu; simpl in Hcount; [lia|].
  exfalso. destruct (Hfresh eq_refl) as [Hpm Hw].
  destruct Hsome as [Hdone | Hlt].
  - rewrite Hdone in Hpm. discriminate.
  - pose proof (weight_all_returned _ Hcbs) as Hall.
    pose proof (weight_le is_return past_h (callbacks st)) as Hle.
    assert (forall h, (is_return h <= past_h h)%nat) as Hh
      by (intros [| | | [] |]; simpl; lia).
    specialize (Hle Hh). lia.
Qed.

Lemma unmount_exactly_once_witness :
  just_mounted (run pixel mounting boot) /\
  unmount_calls (shared (run pixel race (run pixel mounting boot))) = 1%nat.
Proof.
  assert (Hjm : just_mounted (run pixel mounting boot)).
  { split; vm_compute; first [reflexivity | discriminate | constructor]. }
  split; [exact Hjm|].
  apply (unmount_exactly_once pixel race (run pixel mounting boot) Hjm).
  - split; [vm_compute; repeat constructor | right; right; reflexivity].
  - left. reflexivity.
Defined.

(** When main returns, the process is over: a callback that had won the
    compare-and-swap and not yet reached [server.Unmount()] never gets
    there.  So it is not in every run that ends that the call was made:
    the device disappears, the callback wins the swap, the user
    interrupts, the deferred call of main loses the swap and returns, main
    returns. *)
Lemma unmount_skipped_when_main_returns_first :
  ~ (forall (w : World) (schedule : list Action) (st0 : State),
       just_mounted st0 ->
       exited (shared (run w schedule st0)) = Some ExitReturn ->
       unmount_calls (shared (run w schedule st0)) = 1%nat).
Proof.
  intros Hclaim.
  assert (Hjm : just_mounted (run pixel mounting boot)).
  { split; vm_compute; first [reflexivity | discriminate | constructor]. }
  specialize (Hclaim pixel race_cut_short (run pixel mounting boot) Hjm eq_refl).
  vm_compute in Hclaim. discriminate Hclaim.
Qed.

Example main_returns_first :
  let st := run pixel race_cut_short (run pixel mounting boot) in
  unmount_calls (shared st) = 0%nat /\ pending st = 1%nat /\
  exited (shared st) = Some ExitReturn /\
  main st = M_Done /\
  callbacks st = [H_Call U_LogUnmounting].
Proof. vm_compute. repeat split. Qed.

(** From the start of the process, whatever the environment and the
    schedule, [server.Unmount()] is called at most once. *)
Lemma unmount_at_most_once_from_boot (w : World) (schedule : list Action) :
  (unmount_calls (shared (run w schedule boot)) <= 1)%nat.
Proof.
  destruct (boot_phases w schedule) as [[_ _ _ Hcalls _ _ _] | [n0 Hinv]].
  - rewrite Hcalls. lia.
  - eapply mounted_inv_calls, Hinv.
Qed.

Lemma guard_returns_early (s : Shared) :
  exited s = None ->
  Value (mounted s) = false \/ Value (unmounted s) = true ->
  exists visited,
    handleDeviceDisconnected s = (visited, s) /\
    returned_h visited = true /\
    Forall (fun pc => in_unmountServer pc = false) visited.
Proof.
  destruct s as [srv [mv] [uv] tr ex]; simpl. intros -> Hflags.
  assert (Hcases : mv = false \/ (mv = true /\ uv = true))
    by (destruct mv, uv; destruct Hflags; auto; discriminate).
  destruct Hcases as [-> | [-> ->]].
  - exists [H_Return]. repeat split; repeat constructor.
  - exists [H_CheckUnmounted; H_Return]. repeat split; repeat constructor.
Qed.

(** C2. A disconnect callback that arrives while [mounted] is still false
    returns at its first test; one that arrives when [unmounted] is already
    true returns at its second.  In both cases it never enters
    [unmountServer], and the package variables, the effects and the state
    of the process are exactly what they were: no unmount, no panic, no
    error.  The same holds of the callback as one thread among others: its
    step leaves the shared state alone and takes it to its return. *)
Theorem early_disconnect_is_noop (s : Shared) :
  exited s = None ->
  Value (mounted s) = false \/ Value (unmounted s) = true ->
  (exists visited,
     handleDeviceDisconnected s = (visited, s) /\
     returned_h visited = true /\
     Forall (fun pc => in_unmountServer pc = false) visited) /\
  unmount_calls (snd (handleDeviceDisconnected s)) = unmount_calls s /\
  panicked (snd (handleDeviceDisconnected s)) = false /\
  (Value (mounted s) = false ->
   step_handleDeviceDisconnected H_CheckMounted s = (H_Return, s)) /\
  (Value (unmounted s) = true ->
   step_handleDeviceDisconnected H_CheckUnmounted s = (H_Return, s)).
Proof.
  intros Halive Hflags.
  destruct (guard_returns_early s Halive Hflags) as [visited [Hrun Hv]].
  split; [exists visited; split; assumption|].
  rewrite Hrun. simpl.
  split; [reflexivity|]. split; [unfold panicked; rewrite Halive; reflexivity|].
  destruct s as [srv [[|]] [[|]] tr ex]; simpl; split; intros [=]; reflexivity.
Qed.

Lemma early_disconnect_is_noop_witness :
  let s := shared (run pixel (replicate 10 (RunMain ServerDone)) boot) in
  exited s = None /\ Value (mounted s) = false /\
  server s = Some (FuseServer "/home/user/mnt") /\
  unmount_calls (snd (handleDeviceDisconnected s)) = unmount_calls s /\
  panicked (snd (handleDeviceDisconnected s)) = false.
Proof.
  intros s.
  split; [reflexivity|]. split; [reflexivity|]. split; [reflexivity|].
  destruct (early_disconnect_is_noop s eq_refl (or_introl eq_refl))
    as [_ [Hcalls [Hpanic _]]].
  split; assumption.
Defined.

(** C10. [unmountServer] panics when [server] is nil and when [mounted] is
    false; when the server exists and [mounted] is true it returns without
    a panic.  Under [handleDeviceDisconnected] the call is guarded: with
    [mounted] false or [unmounted] true the callback never enters
    [unmountServer] and nothing panics, while the unguarded call in the
    same state would.  Whatever the environment and the schedule, the
    process as a whole never panics. *)
Theorem unmountServer_panics_unless_mounted :
  (forall s, exited s = None -> server s = None ->
     unmountServer s
     = ([U_CheckServer], panic "attempted to unmount server before creating it" s)) /\
  (forall s, exited s = None -> server s <> None -> Value (mounted s) = false ->
     unmountServer s
     = ([U_CheckMounted; U_CheckMounted],
        panic "attempted to unmount server before mounting it" s)) /\
  (forall s, exited s = None -> server s <> None -> Value (mounted s) = true ->
     returned_u (fst (unmountServer s)) = true /\
     panicked (snd (unmountServer s)) = false) /\
  (forall s, exited s = None ->
     Value (mounted s) = false \/ Value (unmounted s) = true ->
     Forall (fun pc => in_unmountServer pc = false) (fst (handleDeviceDisconnected s)) /\
     panicked (snd (handleDeviceDisconnected s)) = false) /\
  (forall s, exited s = None -> Value (mounted s) = false ->
     panicked (snd (unmountServer s)) = true) /\
  (forall w schedule, panicked (shared (run w schedule boot)) = false).
Proof.
  repeat split.
  - intros [srv [mv] [uv] tr ex]; simpl. intros -> ->. reflexivity.
  - intros [[srv|] [mv] [uv] tr ex]; simpl; intros -> Hsrv ->;
      [reflexivity | congruence].
  - destruct s as [[srv|] [mv] [[|]] tr ex]; simpl in *; subst; try congruence;
      reflexivity.
  - destruct s as [[srv|] [mv] [[|]] tr ex]; simpl in *; subst; try congruence;
      reflexivity.
  - destruct (guard_returns_early s) as [visited [Hrun [_ Hall]]];
      try assumption.
    rewrite Hrun. exact Hall.
  - destruct (guard_returns_early s) as [visited [Hrun _]];
      try assumption.
    rewrite Hrun. simpl. unfold panicked. rewrite H. reflexivity.
  - intros [[srv|] [mv] [uv] tr ex]; simpl; intros -> ->; reflexivity.
  - intros w schedule. destruct (boot_phases w schedule) as [H | [n0 H]].
    + apply unmounted_inv_no_panic, H.
    + eapply mounted_inv_no_panic, H.
Qed.

Lemma unmountServer_panics_unless_mounted_witness :
  panicked (snd (unmountServer (shared boot))) = true /\
  panicked (snd (unmountServer (shared (run pixel mounting boot)))) = false /\
  panicked (snd (handleDeviceDisconnected (shared boot))) = false.
Proof.
  destruct unmountServer_panics_unless_mounted
    as [_ [_ [Hmounted [Hguard [Hearly _]]]]].
  split; [apply Hearly; reflexivity|].
  split; [apply Hmounted; [reflexivity | discriminate | reflexivity]|].
  apply Hguard; [reflexivity | left; reflexivity].
Defined.

Section Monotone.

Lemma raised_refl (b : AtomicBool) : raised b b.
Proof. left. reflexivity. Qed.

Lemma raised_value (before after : AtomicBool) :
  raised before after -> Value before = true -> Value after = true.
Proof. intros [-> | [Hb _]]; congruence. Qed.

Lemma step_callback_raises (pc : HPc) (s : Shared) :
  mounted (snd (step_handleDeviceDisconnected pc s)) = mounted s /\
  raised (unmounted s) (unmounted (snd (step_handleDeviceDisconnected pc s))).
Proof.
  destruct s as [srv [mv] [uv] tr ex].
  destruct pc as [| | | u |]; [| | | destruct u |];
    destruct srv, mv, uv; simpl;
    (split; [reflexivity | first [left; reflexivity | right; split; reflexivity]]).
Qed.

Lemma step_main_raises (w : World) (ev : LoopEvent) (pc : MPc) (s : Shared) :
  raised (mounted s) (mounted (snd (step_main w ev pc s))) /\
  raised (unmounted s) (unmounted (snd (step_main w ev pc s))).
Proof.
  destruct pc as [| | | | | | | | | | | | | | u |]; simpl;
    repeat match goal with
    | |- context [String.eqb ?a ?b] => destruct (String.eqb a b)
    | |- context [filepath_Abs ?w ?p] => destruct (filepath_Abs w p)
    | |- context [checkValidMountpoint ?w ?p] => destruct (checkValidMountpoint w p)
    | |- context [NewAdbFileSystem ?w] => destruct (NewAdbFileSystem w)
    | |- context [MountRoot ?w ?p] => destruct (MountRoot w p)
    | |- context [negb (ServeDebug ?w)] => destruct (ServeDebug w)
    | |- context [startServer ?w ?d] => unfold startServer; destruct (select w d)
    | |- context [match ?e with GotSignal _ => _ | ServerDone => _ end] => destruct e
    | |- context [match ?g with Interrupt => _ | Kill => _ | OtherSignal _ => _ end] =>
        destruct g
    end; simpl; try (split; apply raised_refl).
  - (* mounted.CompareAndSwap(false, true) *)
    split; [|apply raised_refl].
    destruct s as [srv [[|]] u tr ex]; simpl; [left | right]; auto.
  - (* the deferred unmountServer() *)
    destruct s as [srv [mv] [uv] tr ex].
    destruct u, srv, mv, uv; simpl;
      (split; first [left; reflexivity | right; split; reflexivity]).
Qed.

Lemma step_raises (w : World) (a : Action) (st : State) :
  raised (mounted (shared st)) (mounted (shared (step w a st))) /\
  raised (unmounted (shared st)) (unmounted (shared (step w a st))).
Proof.
  unfold step. destruct (exited (shared st)); [split; apply raised_refl|].
  destruct a as [ev| |i]; simpl.
  - pose proof (step_main_raises w ev (main st) (shared st)) as H.
    destruct (step_main w ev (main st) (shared st)); exact H.
  - split; apply raised_refl.
  - destruct (callbacks st !! i) as [pc|]; [|split; apply raised_refl].
    pose proof (step_callback_raises pc (shared st)) as [Hm Hu].
    destruct (step_handleDeviceDisconnected pc (shared st)); simpl in *.
    rewrite Hm. split; [apply raised_refl | exact Hu].
Qed.

Lemma flips_monotone (flag : State -> bool) (w : World) :
  (forall a st, flag st = true -> flag (step w a st) = true) ->
  forall schedule st,
    (flips flag w schedule st + Nat.b2n (flag st))%nat
    = Nat.b2n (flag (run w schedule st)).
Proof.
  intros Hmono schedule. induction schedule as [|a rest IH]; intros st.
  - reflexivity.
  - simpl flips. rewrite run_cons, <- IH.
    specialize (Hmono a st).
    destruct (flag st), (flag (step w a st)); simpl; lia.
Qed.

End Monotone.

(** C4. Every step of the program, by main or by a callback, in any
    state, leaves each of [mounted] and [unmounted] as it was or takes it
    from false to true with [CompareAndSwap(false, true)].  So along any
    schedule a flag that is true stays true, and each flag changes value at
    most once. *)
Theorem flags_monotonic (w : World) :
  (forall a st,
     raised (mounted (shared st)) (mounted (shared (step w a st))) /\
     raised (unmounted (shared st)) (unmounted (shared (step w a st)))) /\
  (forall schedule st,
     (mounted_flag st = true -> mounted_flag (run w schedule st) = true) /\
     (unmounted_flag st = true -> unmounted_flag (run w schedule st) = true)) /\
  (forall schedule st,
     (flips mounted_flag w schedule st <= 1)%nat /\
     (flips unmounted_flag w schedule st <= 1)%nat).
Proof.
  assert (Hm : forall a st, mounted_flag st = true -> mounted_flag (step w a st) = true).
  { intros a st. apply raised_value, step_raises. }
  assert (Hu : forall a st, unmounted_flag st = true -> unmounted_flag (step w a st) = true).
  { intros a st. apply raised_value, step_raises. }
  split; [intros a st; apply step_raises|].
  split.
  - intros schedule st.
    pose proof (flips_monotone mounted_flag w Hm schedule st) as H1.
    pose proof (flips_monotone unmounted_flag w Hu schedule st) as H2.
    split; intros H; rewrite H in *; simpl in *.
    + destruct (mounted_flag (run w schedule st)); simpl in *; [reflexivity | lia].
    + destruct (unmounted_flag (run w schedule st)); simpl in *; [reflexivity | lia].
  - intros schedule st.
    pose proof (flips_monotone mounted_flag w Hm schedule st) as H1.
    pose proof (flips_monotone unmounted_flag w Hu schedule st) as H2.
    destruct (mounted_flag (run w schedule st)), (unmounted_flag (run w schedule st));
      simpl in *; lia.
Qed.

Example flags_flip_once :
  flips mounted_flag pixel (mounting ++ race) boot = 1%nat /\
  flips unmounted_flag pixel (mounting ++ race) boot = 1%nat.
Proof. vm_compute. split; reflexivity. Qed.

Section Startup.

Lemma select_timeout (w : World) (d : Duration) :
  beyond (readyAt w) d -> beyond (doneAt w) d -> select w d = CaseTimeout.
Proof.
  intros Hready Hdone.
  assert (Hwake : wake_time w d = d).
  { unfold wake_time, min_opt, beyond in *.
    destruct (readyAt w), (doneAt w); lia. }
  unfold select, ready_cases. cbn [List.filter case_time]. rewrite Hwake.
  assert (Hr : fired (readyAt w) d = false).
  { unfold fired, beyond in *. destruct (readyAt w); [|reflexivity].
    apply Z.leb_gt. assumption. }
  assert (Hd : fired (doneAt w) d = false).
  { unfold fired, beyond in *. destruct (doneAt w); [|reflexivity].
    apply Z.leb_gt. assumption. }
  rewrite Hr, Hd. unfold fired. rewrite Z.leb_refl. cbn [length].
  rewrite Nat.mod_1_r. reflexivity.
Qed.

Lemma startServer_timeout (w : World) (d : Duration) :
  beyond (readyAt w) d -> beyond (doneAt w) d ->
  startServer w d = ([EvServe; EvWaitMount], inl (ErrStartTimeout d)).
Proof.
  intros Hready Hdone. unfold startServer.
  rewrite select_timeout by assumption. reflexivity.
Qed.

(** Before the swap of [mounted], a step of main goes to the next
    statement or ends the process where it stands. *)
Lemma main_progress (w : World) (ev : LoopEvent) (pc : MPc) (s : Shared) :
  exited s = None -> (rank pc <= 11)%nat ->
  (exited (snd (step_main w ev pc s)) = None /\
   rank (fst (step_main w ev pc s)) = S (rank pc)) \/
  (fst (step_main w ev pc s) = pc /\
   exited (snd (step_main w ev pc s)) <> None).
Proof.
  intros Halive Hrank.
  destruct pc; simpl in Hrank; try lia; simpl;
    repeat match goal with
    | |- context [String.eqb ?a ?b] => destruct (String.eqb a b)
    | |- context [filepath_Abs ?w ?p] => destruct (filepath_Abs w p)
    | |- context [checkValidMountpoint ?w ?p] => destruct (checkValidMountpoint w p)
    | |- context [NewAdbFileSystem ?w] => destruct (NewAdbFileSystem w)
    | |- context [MountRoot ?w ?p] => destruct (MountRoot w p)
    | |- context [negb (ServeDebug ?w)] => destruct (ServeDebug w)
    | |- context [startServer ?w ?d] => unfold startServer; destruct (select w d)
    end; simpl;
    first [ left; split; [assumption | reflexivity]
          | right; split; [reflexivity | discriminate] ].
Qed.

(** Before the swap of [mounted], the callbacks change nothing. *)
Lemma idle_step (w : World) (a : Action) (st : State) :
  unmounted_inv st -> is_main a = 0%nat ->
  shared (step w a st) = shared st /\ main (step w a st) = main st.
Proof.
  intros [_ Hm _ _ Hcbs _ _] Ha. unfold step.
  destruct (exited (shared st)); [split; reflexivity|].
  destruct a as [ev| |i]; simpl in *; try discriminate; [split; reflexivity|].
  destruct (callbacks st !! i) as [pc|] eqn:Hi; [|split; reflexivity].
  pose proof (Forall_lookup_1 _ _ _ _ Hcbs Hi) as Hidle.
  destruct pc; simpl in Hidle; try discriminate; simpl.
  - rewrite Hm. simpl. split; reflexivity.
  - split; reflexivity.
Qed.

Lemma unmounted_inv_bounded (w : World) (a : Action) (st : State) :
  unmounted_inv st -> (rank (main (step w a st)) <= 11)%nat ->
  unmounted_inv (step w a st).
Proof.
  intros Hinv Hrank.
  destruct (unmounted_inv_step w a st Hinv) as [H | [_ _ _ _ _ Hmain _]];
    [assumption|].
  rewrite Hmain in Hrank. simpl in Hrank. lia.
Qed.

Lemma step_main_state (w : World) (ev : LoopEvent) (st : State) :
  exited (shared st) = None ->
  shared (step w (RunMain ev) st) = snd (step_main w ev (main st) (shared st)) /\
  main (step w (RunMain ev) st) = fst (step_main w ev (main st) (shared st)).
Proof.
  intros Halive. unfold step. rewrite Halive.
  destruct (step_main w ev (main st) (shared st)). split; reflexivity.
Qed.

Lemma slow_inv_step (w : World) (a : Action) (n : nat) (st : State) :
  slow_start w -> slow_inv n st -> slow_inv (n + is_main a) (step w a st).
Proof.
  intros [Hready Hdone] [Hpre Hrank Hprog Hreason].
  assert (Hlife : exited (shared st) = None \/ exists x, exited (shared st) = Some x)
    by (destruct (exited (shared st)); eauto).
  destruct Hlife as [Halive | [x Halive]];
    [|rewrite (step_exited w a st x Halive); split; auto;
      rewrite Halive; discriminate].
  destruct (is_main a) eqn:Ha.
  { destruct (idle_step w a st Hpre Ha) as [Hs Hm].
    assert (Hle : (rank (main (step w a st)) <= 11)%nat) by (rewrite Hm; lia).
    split; [apply unmounted_inv_bounded; assumption | rewrite Hm; assumption | |].
    - rewrite Hs, Hm, Nat.add_0_r. assumption.
    - rewrite Hs, Hm. assumption. }
  destruct a as [ev| |i]; simpl in Ha; try discriminate. injection Ha as <-.
  destruct (step_main_state w ev st Halive) as [Hs Hm].
  specialize (Hprog Halive).
  assert (Hcases :
    (exited (shared (step w (RunMain ev) st)) = None /\
     rank (main (step w (RunMain ev) st)) = S (rank (main st)) /\
     (rank (main st) < 9)%nat) \/
    (main (step w (RunMain ev) st) = main st /\
     exited (shared (step w (RunMain ev) st)) <> None /\
     (rank (main st) = 9%nat ->
      exited (shared (step w (RunMain ev) st))
      = Some (ExitFatal (FatalErr (ErrStartTimeout StartTimeout)))))).
  { rewrite Hs, Hm.
    destruct (Nat.eq_dec (rank (main st)) 9%nat) as [H9 | H9].
    - right. destruct (main st); simpl in H9; try discriminate. simpl.
      rewrite startServer_timeout by assumption. simpl.
      split; [reflexivity|]. split; [discriminate | reflexivity].
    - destruct (main_progress w ev (main st) (shared st) Halive) as [[H1 H2] | [H1 H2]];
        [lia | left | right]; repeat split; auto; try lia. }
  destruct Hcases as [[Hal [Hrk Hlt]] | [Hsame [Hdead H9]]].
  - split.
    + apply unmounted_inv_bounded; [assumption | lia].
    + lia.
    + intros _. lia.
    + intros x Hx. congruence.
  - split.
    + apply unmounted_inv_bounded; [assumption | rewrite Hsame; lia].
    + rewrite Hsame. assumption.
    + intros Hx. contradiction.
    + intros x Hx Hr. rewrite Hsame in Hr. rewrite (H9 Hr) in Hx. congruence.
Qed.

Lemma main_steps_snoc (schedule : list Action) (a : Action) :
  main_steps (schedule ++ [a]) = (main_steps schedule + is_main a)%nat.
Proof.
  unfold main_steps. rewrite sum_list_with_app. simpl. lia.
Qed.

Lemma slow_inv_run (w : World) (schedule : list Action) :
  slow_start w -> slow_inv (main_steps schedule) (run w schedule boot).
Proof.
  intros Hslow. induction schedule as [|a rest IH] using rev_ind.
  - split; simpl; auto; try lia; first [apply boot_unmounted_inv | discriminate].
  - rewrite run_snoc, main_steps_snoc. apply slow_inv_step; assumption.
Qed.

End Startup.

(** C3. When neither [serverReady] nor [serverDone] is closed within
    [StartTimeout], five seconds, [startServer] returns the timeout error.
    Then, whatever the schedule: main never gets past [startServer], so
    [mounted] stays false and the deferred unmount is never registered;
    [server.Unmount()] is never called, by main or by a callback; once main
    has taken its ten steps the process has exited through
    [cli.Log.Fatal], the message printed last, and if it got as far as
    [startServer] the message is the timeout error. *)
Theorem startup_timeout_is_fatal (w : World) (schedule : list Action) :
  slow_start w ->
  let st := run w schedule boot in
  StartTimeout = 5000000000 /\
  startServer w StartTimeout
    = ([EvServe; EvWaitMount], inl (ErrStartTimeout StartTimeout)) /\
  (rank (main st) <= 9)%nat /\
  Value (mounted (shared st)) = false /\
  unmount_calls (shared st) = 0%nat /\
  pending st = 0%nat /\
  (forall x, exited (shared st) = Some x ->
     exists arg, x = ExitFatal arg /\ last (trace (shared st)) = Some (EvFatal arg)) /\
  (forall x, exited (shared st) = Some x -> rank (main st) = 9%nat ->
     x = ExitFatal (FatalErr (ErrStartTimeout StartTimeout))) /\
  ((10 <= main_steps schedule)%nat -> exists arg, exited (shared st) = Some (ExitFatal arg)).
Proof.
  intros Hslow st.
  pose proof (slow_inv_run w schedule Hslow) as [Hpre Hrank Hprog Hreason].
  fold st in Hpre, Hrank, Hprog, Hreason.
  destruct Hslow as [Hready Hdone].
  split; [reflexivity|].
  split; [apply startServer_timeout; assumption|].
  split; [assumption|].
  destruct Hpre as [_ Hm _ Hcalls Hcbs Hex _].
  split; [assumption|]. split; [assumption|].
  split.
  { unfold pending. rewrite idle_no_pending by assumption.
    destruct (main st); simpl in *; try reflexivity; lia. }
  split; [assumption|]. split; [assumption|].
  intros Hsteps. destruct (exited (shared st)) as [x|] eqn:Halive.
  - destruct (Hex x eq_refl) as [arg [-> _]]. exists arg. reflexivity.
  - specialize (Hprog eq_refl). lia.
Qed.

Lemma startup_timeout_is_fatal_witness :
  slow_start stalled /\
  unmount_calls (shared (run stalled mounting boot)) = 0%nat /\
  exists arg, exited (shared (run stalled mounting boot)) = Some (ExitFatal arg).
Proof.
  assert (Hslow : slow_start stalled) by (split; exact I).
  split; [exact Hslow|].
  destruct (startup_timeout_is_fatal stalled mounting Hslow)
    as [_ [_ [_ [_ [Hcalls [_ [_ [_ Hfatal]]]]]]]].
  split; [exact Hcalls|].
  apply Hfatal. vm_compute. lia.
Defined.

Section Configuration.

Lemma checkValidMountpoint_rejects (w : World) (abs : string) :
  (exists err, os_Stat w abs = inl err) \/ os_Stat w abs = inr false ->
  exists err, checkValidMountpoint w abs = Some err.
Proof.
  unfold checkValidMountpoint. intros [[err ->] | ->]; eauto.
Qed.

Lemma config_event_snoc (tr : list Event) (e : Event) :
  Forall (fun e => config_event e = true) tr -> config_event e = true ->
  Forall (fun e => config_event e = true) (tr ++ [e]).
Proof. intros Htr He. apply Forall_app. split; [assumption | repeat constructor; assumption]. Qed.

(** What a step of main does while it checks a configuration that is
    bound to be rejected. *)
Lemma config_main_step (w : World) (ev : LoopEvent) (pc : MPc) (s : Shared) :
  invalid_config w ->
  exited s = None -> (rank pc <= 4)%nat ->
  server s = None ->
  Forall (fun e => config_event e = true) (trace s) ->
  ((2 <= rank pc)%nat -> DeviceSerial w <> "") ->
  ((3 <= rank pc)%nat -> Mountpoint w <> "") ->
  (forall abs, pc = M_CheckValid abs -> filepath_Abs w (Mountpoint w) = inr abs) ->
  let pc' := fst (step_main w ev pc s) in
  let s' := snd (step_main w ev pc s) in
  server s' = None /\
  Forall (fun e => config_event e = true) (trace s') /\
  ((exited s' = None /\ rank pc' = S (rank pc) /\ (rank pc < 4)%nat /\
    ((2 <= rank pc')%nat -> DeviceSerial w <> "") /\
    ((3 <= rank pc')%nat -> Mountpoint w <> "") /\
    (forall abs, pc' = M_CheckValid abs -> filepath_Abs w (Mountpoint w) = inr abs))
   \/ (pc' = pc /\ exited s' <> None)).
Proof.
  intros Hbad Halive Hrank Hsrv Htr Hserial Hmountpoint Habs.
  destruct pc; simpl in Hrank; try lia; unfold step_main.
  - (* cli.Initialize *)
    simpl. split; [assumption|]. split; [apply config_event_snoc; auto|].
    left. advance. discriminate.
  - (* the serial *)
    destruct (String.eqb (DeviceSerial w) "") eqn:Hs; simpl.
    + split; [assumption|]. split; [apply config_event_snoc; auto|].
      right. split; [reflexivity | discriminate].
    + apply String.eqb_neq in Hs.
      split; [assumption|]. split; [assumption|].
      left. advance. discriminate.
  - (* the mountpoint *)
    destruct (String.eqb (Mountpoint w) "") eqn:Hs; simpl.
    + split; [assumption|]. split; [apply config_event_snoc; auto|].
      right. split; [reflexivity | discriminate].
    + apply String.eqb_neq in Hs.
      split; [assumption|]. split; [assumption|].
      left. advance. discriminate.
  - (* filepath.Abs *)
    destruct (filepath_Abs w (Mountpoint w)) as [err | abs] eqn:Ha; simpl.
    + split; [assumption|]. split; [apply config_event_snoc; auto|].
      right. split; [reflexivity | discriminate].
    + split; [assumption|]. split; [assumption|].
      left. advance. intros abs' [= <-]. reflexivity.
  - (* checkValidMountpoint *)
    specialize (Habs abs eq_refl).
    assert (Hrej : exists err, checkValidMountpoint w abs = Some err).
    { destruct Hbad as [H | [H | [[err H] | [abs' [H1 H2]]]]].
      - exfalso. apply Hserial; [simpl; lia | assumption].
      - exfalso. apply Hmountpoint; [simpl; lia | assumption].
      - congruence.
      - assert (abs' = abs) by congruence. subst abs'.
        apply checkValidMountpoint_rejects, H2. }
    destruct Hrej as [err ->]. simpl.
    split; [assumption|]. split; [apply config_event_snoc; auto|].
    right. split; [reflexivity | discriminate].
Qed.

Lemma config_inv_step (w : World) (a : Action) (n : nat) (st : State) :
  invalid_config w -> config_inv w n st -> config_inv w (n + is_main a) (step w a st).
Proof.
  intros Hbad [Hpre Hrank Hprog Htr Hsrv Hserial Hmountpoint Habs].
  assert (Hlife : exited (shared st) = None \/ exists x, exited (shared st) = Some x)
    by (destruct (exited (shared st)); eauto).
  destruct Hlife as [Halive | [x Halive]];
    [|rewrite (step_exited w a st x Halive); split; auto;
      rewrite Halive; discriminate].
  destruct (is_main a) eqn:Ha.
  { destruct (idle_step w a st Hpre Ha) as [Hs Hm].
    assert (Hle : (rank (main (step w a st)) <= 11)%nat) by (rewrite Hm; lia).
    split; rewrite ?Hs, ?Hm, ?Nat.add_0_r; auto.
    apply unmounted_inv_bounded; assumption. }
  destruct a as [ev| |i]; simpl in Ha; try discriminate. injection Ha as <-.
  destruct (step_main_state w ev st Halive) as [Hs Hm].
  specialize (Hprog Halive).
  destruct (config_main_step w ev (main st) (shared st) Hbad Halive Hrank
              Hsrv Htr Hserial Hmountpoint Habs)
    as [Hsrv' [Htr' [[Hal [Hrk [Hlt [Hse [Hmp Hab]]]]] | [Hsame Hdead]]]];
    rewrite <- ?Hs, <- ?Hm in *.
  - split; auto; try lia.
    apply unmounted_inv_bounded; [assumption | lia].
  - split; auto; try (rewrite Hsame; auto; lia).
    + apply unmounted_inv_bounded; [assumption | rewrite Hsame; lia].
    + intros Hx. contradiction.
Qed.

Lemma config_inv_run (w : World) (schedule : list Action) :
  invalid_config w -> config_inv w (main_steps schedule) (run w schedule boot).
Proof.
  intros Hbad. induction schedule as [|a rest IH] using rev_ind.
  - split; simpl; auto; try lia; try discriminate. apply boot_unmounted_inv.
  - rewrite run_snoc, main_steps_snoc. apply config_inv_step; assumption.
Qed.

Lemma config_event_not_mount (e : Event) :
  config_event e = true -> mount_event e = false.
Proof. destruct e; simpl; congruence. Qed.

End Configuration.

(** C5. With an empty serial, or a mountpoint that is empty, has no
    absolute path, does not exist or is not a directory, whatever the
    schedule: main never gets past [checkValidMountpoint]; the process has
    done nothing but [cli.Initialize] and print the fatal message, so
    nothing was mounted, served or unmounted and [server] is still nil;
    and once main has taken its five steps the process has exited through
    [cli.Log.Fatal], the message printed last. *)
Theorem invalid_config_is_fatal (w : World) (schedule : list Action) :
  invalid_config w ->
  let st := run w schedule boot in
  (rank (main st) <= 4)%nat /\
  Forall (fun e => config_event e = true) (trace (shared st)) /\
  Forall (fun e => mount_event e = false) (trace (shared st)) /\
  server (shared st) = None /\
  Value (mounted (shared st)) = false /\
  (forall x, exited (shared st) = Some x ->
     exists arg, x = ExitFatal arg /\ last (trace (shared st)) = Some (EvFatal arg)) /\
  ((5 <= main_steps schedule)%nat ->
   exists arg, exited (shared st) = Some (ExitFatal arg) /\
               last (trace (shared st)) = Some (EvFatal arg)).
Proof.
  intros Hbad st.
  pose proof (config_inv_run w schedule Hbad)
    as [Hpre Hrank Hprog Htr Hsrv _ _ _].
  fold st in Hpre, Hrank, Hprog, Htr, Hsrv.
  destruct Hpre as [_ Hm _ _ _ Hex _].
  split; [assumption|]. split; [assumption|].
  split; [eapply Forall_impl; [exact Htr | exact config_event_not_mount]|].
  split; [assumption|]. split; [assumption|]. split; [assumption|].
  intros Hsteps.
  assert (Hlife : exited (shared st) = None \/ exists x, exited (shared st) = Some x)
    by (destruct (exited (shared st)); eauto).
  destruct Hlife as [Halive | [x Halive]].
  - specialize (Hprog Halive). lia.
  - destruct (Hex x Halive) as [arg [-> Hlast]]. exists arg. split; assumption.
Qed.

Lemma invalid_config_is_fatal_witness :
  invalid_config misconfigured /\
  server (shared (run misconfigured mounting boot)) = None /\
  exists arg,
    exited (shared (run misconfigured mounting boot)) = Some (ExitFatal arg) /\
    last (trace (shared (run misconfigured mounting boot))) = Some (EvFatal arg).
Proof.
  assert (Hbad : invalid_config misconfigured).
  { right. right. right. exists "/home/user/notes.txt".
    split; [reflexivity | right; reflexivity]. }
  split; [exact Hbad|].
  destruct (invalid_config_is_fatal misconfigured mounting Hbad)
    as [_ [_ [_ [Hsrv [_ [_ Hfatal]]]]]].
  split; [exact Hsrv|].
  apply Hfatal. vm_compute. lia.
Defined.


(** * Proofs: more of main.go *)

Section Select.

Lemma wake_time_le (w : World) (d : Duration) :
  wake_time w d <= d /\
  (forall r, readyAt w = Some r -> wake_time w d <= r) /\
  (forall t, doneAt w = Some t -> wake_time w d <= t).
Proof.
  unfold wake_time, min_opt.
  destruct (readyAt w) as [r|], (doneAt w) as [t|];
    repeat split; intros x [= <-] || intros x [=] || idtac; lia.
Qed.

(** Some case of the select can proceed when it wakes. *)
Lemma some_case_fired (w : World) (d : Duration) :
  exists c, In c [CaseReady; CaseDone; CaseTimeout] /\
            fired (case_time w d c) (wake_time w d) = true.
Proof.
  unfold wake_time, min_opt.
  destruct (readyAt w) as [r|] eqn:Hr, (doneAt w) as [t|] eqn:Ht.
  - destruct (Z.le_gt_cases r (Z.min t d)); [exists CaseReady | destruct (Z.le_gt_cases t d);
      [exists CaseDone | exists CaseTimeout]];
      simpl; rewrite ?Hr, ?Ht; simpl; (split; [tauto | apply Z.leb_le; lia]).
  - destruct (Z.le_gt_cases r d); [exists CaseReady | exists CaseTimeout];
      simpl; rewrite ?Hr, ?Ht; simpl; (split; [tauto | apply Z.leb_le; lia]).
  - destruct (Z.le_gt_cases t d); [exists CaseDone | exists CaseTimeout];
      simpl; rewrite ?Hr, ?Ht; simpl; (split; [tauto | apply Z.leb_le; lia]).
  - exists CaseTimeout. simpl. split; [tauto | apply Z.leb_le; lia].
Qed.

Lemma pick_in_list (l : list SelectCase) (n : nat) :
  l <> [] -> In (default CaseTimeout (l !! Nat.modulo n (length l))) l.
Proof.
  intros Hl.
  assert (Hlt : (Nat.modulo n (length l) < length l)%nat).
  { apply Nat.mod_upper_bound. destruct l; [congruence | simpl; lia]. }
  destruct (lookup_lt_is_Some_2 l _ Hlt) as [c Hc]. rewrite Hc. simpl.
  apply list_elem_of_In. eapply list_elem_of_lookup_2. exact Hc.
Qed.

(** The case the select takes is one that can proceed when it wakes. *)
Lemma select_fired (w : World) (d : Duration) :
  fired (case_time w d (select w d)) (wake_time w d) = true.
Proof.
  destruct (some_case_fired w d) as [c [Hin Hc]].
  assert (Hne : ready_cases w d <> []).
  { intros Hnil.
    assert (In c (ready_cases w d)) as Hc' by (apply List.filter_In; auto).
    rewrite Hnil in Hc'. destruct Hc'. }
  pose proof (pick_in_list (ready_cases w d) (tiebreak w) Hne) as Hpick.
  fold (select w d) in Hpick.
  apply List.filter_In in Hpick. apply Hpick.
Qed.

Lemma select_ready (w : World) (d : Duration) :
  ready_first w d -> select w d = CaseReady.
Proof.
  intros [r [Hr [Hlt Hdone]]].
  assert (Hwake : wake_time w d = r).
  { unfold wake_time, min_opt, beyond in *. rewrite Hr.
    destruct (doneAt w); lia. }
  unfold select, ready_cases. cbn [List.filter case_time]. rewrite Hwake, Hr.
  assert (Hd : fired (doneAt w) r = false).
  { unfold fired, beyond in *. destruct (doneAt w); [|reflexivity].
    apply Z.leb_gt. assumption. }
  rewrite Hd. unfold fired. rewrite Z.leb_refl.
  assert (Ht : (d <=? r) = false) by (apply Z.leb_gt; assumption).
  rewrite Ht. cbn [length]. rewrite Nat.mod_1_r. reflexivity.
Qed.

Lemma select_done (w : World) (d : Duration) :
  done_first w d -> select w d = CaseDone.
Proof.
  intros [t [Ht [Hlt Hready]]].
  assert (Hwake : wake_time w d = t).
  { unfold wake_time, min_opt, beyond in *. rewrite Ht.
    destruct (readyAt w); lia. }
  unfold select, ready_cases. cbn [List.filter case_time]. rewrite Hwake, Ht.
  assert (Hr : fired (readyAt w) t = false).
  { unfold fired, beyond in *. destruct (readyAt w); [|reflexivity].
    apply Z.leb_gt. assumption. }
  rewrite Hr. unfold fired. rewrite Z.leb_refl.
  assert (Hd : (d <=? t) = false) by (apply Z.leb_gt; assumption).
  rewrite Hd. cbn [length]. rewrite Nat.mod_1_r. reflexivity.
Qed.

End Select.

(** X1. [startServer] by what happens first.  When [serverReady] is
    closed before [serverDone] and before the timeout, it starts both
    goroutines, prints "server ready." and succeeds; when [serverDone] is
    closed first, it fails with "unknown error" and prints nothing.  It
    reports the timeout only when neither channel was closed before the
    timeout, succeeds only when [serverReady] was closed no later than the
    timeout and than [serverDone], and in every case has started both
    goroutines first. *)
Theorem startServer_by_first_event (w : World) (d : Duration) :
  (ready_first w d ->
   startServer w d = ([EvServe; EvWaitMount; EvLog "server ready."], inr tt)) /\
  (done_first w d ->
   startServer w d = ([EvServe; EvWaitMount], inl ErrUnknown)) /\
  (snd (startServer w d) = inl (ErrStartTimeout d) ->
   ~ closed_before (readyAt w) d /\ ~ closed_before (doneAt w) d) /\
  (snd (startServer w d) = inr tt ->
   exists r, readyAt w = Some r /\ r <= d /\ forall t, doneAt w = Some t -> r <= t) /\
  (snd (startServer w d) = inl ErrUnknown ->
   exists t, doneAt w = Some t /\ t <= d /\ forall r, readyAt w = Some r -> t <= r) /\
  (exists rest, fst (startServer w d) = [EvServe; EvWaitMount] ++ rest).
Proof.
  pose proof (select_fired w d) as Hfired.
  destruct (wake_time_le w d) as [Hwd [Hwr Hwt]].
  split; [intros H; unfold startServer; rewrite select_ready by exact H; reflexivity|].
  split; [intros H; unfold startServer; rewrite select_done by exact H; reflexivity|].
  unfold startServer. destruct (select w d); simpl in *.
  - (* ready *)
    repeat split; try discriminate; [|eexists; reflexivity].
    intros _. unfold fired in Hfired. destruct (readyAt w) as [r|]; [|discriminate].
    apply Z.leb_le in Hfired. exists r. split; [reflexivity|].
    split; [lia|]. intros t Ht. specialize (Hwt t Ht). lia.
  - (* done *)
    repeat split; try discriminate; [|exists []; reflexivity].
    intros _. unfold fired in Hfired. destruct (doneAt w) as [t|]; [|discriminate].
    apply Z.leb_le in Hfired. exists t. split; [reflexivity|].
    split; [lia|]. intros r Hr. specialize (Hwr r Hr). lia.
  - (* timeout *)
    apply Z.leb_le in Hfired.
    repeat split; try discriminate; [| |exists []; reflexivity].
    + intros [r [Hr Hlt]]. specialize (Hwr r Hr). lia.
    + intros [t [Ht Hlt]]. specialize (Hwt t Ht). lia.
Qed.

Lemma startServer_by_first_event_witness :
  ready_first pixel StartTimeout /\
  done_first crashing StartTimeout /\
  snd (startServer pixel StartTimeout) = inr tt /\
  snd (startServer crashing StartTimeout) = inl ErrUnknown.
Proof.
  assert (Hready : ready_first pixel StartTimeout).
  { exists 20000000. repeat split; reflexivity. }
  assert (Hdone : done_first crashing StartTimeout).
  { exists 1000000. repeat split; reflexivity. }
  destruct (startServer_by_first_event pixel StartTimeout) as [Hr _].
  destruct (startServer_by_first_event crashing StartTimeout) as [_ [Hd _]].
  split; [exact Hready|]. split; [exact Hdone|].
  rewrite (Hr Hready), (Hd Hdone). split; reflexivity.
Defined.

Section FailedStart.

Lemma start_fails_inv_step (w : World) (err : error) (a : Action) (n : nat)
    (st : State) :
  snd (startServer w StartTimeout) = inl err ->
  start_fails_inv err n st -> start_fails_inv err (n + is_main a) (step w a st).
Proof.
  intros Hfail [Hpre Hrank Hprog Hreason].
  assert (Hlife : exited (shared st) = None \/ exists x, exited (shared st) = Some x)
    by (destruct (exited (shared st)); eauto).
  destruct Hlife as [Halive | [x Halive]];
    [|rewrite (step_exited w a st x Halive); split; auto;
      rewrite Halive; discriminate].
  destruct (is_main a) eqn:Ha.
  { destruct (idle_step w a st Hpre Ha) as [Hs Hm].
    assert (Hle : (rank (main (step w a st)) <= 11)%nat) by (rewrite Hm; lia).
    split; rewrite ?Hs, ?Hm, ?Nat.add_0_r; auto.
    apply unmounted_inv_bounded; assumption. }
  destruct a as [ev| |i]; simpl in Ha; try discriminate. injection Ha as <-.
  destruct (step_main_state w ev st Halive) as [Hs Hm].
  specialize (Hprog Halive).
  destruct (Nat.eq_dec (rank (main st)) 9%nat) as [H9 | H9].
  - assert (Hstep : main (step w (RunMain ev) st) = main st /\
                    exited (shared (step w (RunMain ev) st))
                    = Some (ExitFatal (FatalErr err))).
    { rewrite Hs, Hm. destruct (main st); simpl in H9; try discriminate. simpl.
      destruct (startServer w StartTimeout) as [events result]. simpl in Hfail.
      subst result. split; reflexivity. }
    destruct Hstep as [Hsame Hdead].
    split.
    + apply unmounted_inv_bounded; [assumption | rewrite Hsame; lia].
    + rewrite Hsame. assumption.
    + rewrite Hdead. discriminate.
    + intros x Hx _. congruence.
  - destruct (main_progress w ev (main st) (shared st) Halive) as [[H1 H2] | [H1 H2]];
      [lia | |]; rewrite <- ?Hs, <- ?Hm in *.
    + split.
      * apply unmounted_inv_bounded; [assumption | lia].
      * lia.
      * intros _. lia.
      * intros x Hx. congruence.
    + split.
      * apply unmounted_inv_bounded; [assumption | rewrite H1; lia].
      * rewrite H1. assumption.
      * intros Hx. contradiction.
      * intros x Hx Hr. rewrite H1 in Hr. contradiction.
Qed.

Lemma start_fails_inv_run (w : World) (err : error) (schedule : list Action) :
  snd (startServer w StartTimeout) = inl err ->
  start_fails_inv err (main_steps schedule) (run w schedule boot).
Proof.
  intros Hfail. induction schedule as [|a rest IH] using rev_ind.
  - split; simpl; auto; try lia; first [apply boot_unmounted_inv | discriminate].
  - rewrite run_snoc, main_steps_snoc. apply start_fails_inv_step; assumption.
Qed.

End FailedStart.

(** X2. When [startServer] fails, for whichever reason, main goes no
    further: in every schedule it stays at or before [startServer], so
    [mounted] stays false and the deferred unmount is never registered;
    [server.Unmount()] is never called; a process that ended in
    [startServer] ended through [cli.Log.Fatal] with the very error
    [startServer] returned; and once main has taken its ten steps the
    process is over. *)
Theorem failed_start_is_fatal (w : World) (err : error) (schedule : list Action) :
  snd (startServer w StartTimeout) = inl err ->
  let st := run w schedule boot in
  (rank (main st) <= 9)%nat /\
  Value (mounted (shared st)) = false /\
  Value (unmounted (shared st)) = false /\
  unmount_calls (shared st) = 0%nat /\
  (forall x, exited (shared st) = Some x -> rank (main st) = 9%nat ->
     x = ExitFatal (FatalErr err) /\
     last (trace (shared st)) = Some (EvFatal (FatalErr err))) /\
  ((10 <= main_steps schedule)%nat ->
   exists arg, exited (shared st) = Some (ExitFatal arg)).
Proof.
  intros Hfail st.
  pose proof (start_fails_inv_run w err schedule Hfail) as [Hpre Hrank Hprog Hreason].
  fold st in Hpre, Hrank, Hprog, Hreason.
  destruct Hpre as [_ Hm Hu Hcalls _ Hex _].
  split; [assumption|]. split; [assumption|]. split; [assumption|].
  split; [assumption|].
  split.
  - intros x Hx H9. pose proof (Hreason x Hx H9) as ->.
    split; [reflexivity|]. destruct (Hex _ Hx) as [arg [[= <-] Hlast]]. exact Hlast.
  - intros Hsteps.
    assert (Hlife : exited (shared st) = None \/ exists x, exited (shared st) = Some x)
      by (destruct (exited (shared st)); eauto).
    destruct Hlife as [Halive | [x Halive]].
    + specialize (Hprog Halive). lia.
    + destruct (Hex x Halive) as [arg [-> _]]. exists arg. exact Halive.
Qed.

Lemma failed_start_is_fatal_witness :
  snd (startServer crashing StartTimeout) = inl ErrUnknown /\
  unmount_calls (shared (run crashing mounting boot)) = 0%nat /\
  exists arg, exited (shared (run crashing mounting boot)) = Some (ExitFatal arg).
Proof.
  assert (Hfail : snd (startServer crashing StartTimeout) = inl ErrUnknown)
    by reflexivity.
  split; [exact Hfail|].
  destruct (failed_start_is_fatal crashing ErrUnknown mounting Hfail)
    as [_ [_ [_ [Hcalls [_ Hfatal]]]]].
  split; [exact Hcalls|].
  apply Hfatal. vm_compute. lia.
Defined.

Section Startup2.

Lemma alone_snoc (n : nat) : alone (S n) = alone n ++ [RunMain ServerDone].
Proof.
  unfold alone. induction n as [|n IH]; [reflexivity|].
  change (replicate (S (S n)) (RunMain ServerDone))
    with (RunMain ServerDone :: replicate (S n) (RunMain ServerDone)).
  rewrite IH at 1. reflexivity.
Qed.

(** Up to the loop, a step of main does not look at what the loop would
    receive. *)
Lemma step_main_ignores_event (w : World) (ev ev' : LoopEvent) (pc : MPc)
    (s : Shared) :
  (rank pc <= 12)%nat -> step_main w ev pc s = step_main w ev' pc s.
Proof. destruct pc; simpl; intros Hrank; try reflexivity; lia. Qed.

(** A step of main looks at the package variables and at where main is,
    not at the callbacks. *)
Lemma step_main_congr (w : World) (ev : LoopEvent) (st1 st2 : State) :
  shared st1 = shared st2 -> main st1 = main st2 ->
  shared (step w (RunMain ev) st1) = shared (step w (RunMain ev) st2) /\
  main (step w (RunMain ev) st1) = main (step w (RunMain ev) st2).
Proof.
  intros Hs Hm. unfold step. rewrite Hs, Hm.
  destruct (exited (shared st2)); [split; assumption|].
  destruct (step_main w ev (main st2) (shared st2)). split; reflexivity.
Qed.

Lemma rank_step_le (w : World) (a : Action) (st : State) :
  unmounted_inv st ->
  (rank (main (step w a st)) <= rank (main st) + is_main a)%nat.
Proof.
  intros Hpre.
  assert (Hlife : exited (shared st) = None \/ exists x, exited (shared st) = Some x)
    by (destruct (exited (shared st)); eauto).
  destruct Hlife as [Halive | [x Halive]];
    [|rewrite (step_exited w a st x Halive); lia].
  destruct (is_main a) eqn:Ha.
  { destruct (idle_step w a st Hpre Ha) as [_ ->]. lia. }
  destruct a as [ev| |i]; simpl in Ha; try discriminate. injection Ha as <-.
  destruct (step_main_state w ev st Halive) as [_ ->].
  destruct (main_progress w ev (main st) (shared st) Halive (ui_rank _ Hpre))
    as [[_ ->] | [-> _]]; lia.
Qed.

Lemma early_steps (w : World) (schedule : list Action) :
  (main_steps schedule <= 11)%nat ->
  shared (run w schedule boot) = shared (run w (alone (main_steps schedule)) boot) /\
  main (run w schedule boot) = main (run w (alone (main_steps schedule)) boot) /\
  (rank (main (run w schedule boot)) <= main_steps schedule)%nat /\
  unmounted_inv (run w schedule boot).
Proof.
  induction schedule as [|a rest IH] using rev_ind; intros Hsteps.
  - simpl. split; [reflexivity|]. split; [reflexivity|].
    split; [lia | apply boot_unmounted_inv].
  - rewrite main_steps_snoc in *. rewrite run_snoc.
    destruct IH as [Hs [Hm [Hrank Hpre]]]; [lia|].
    pose proof (rank_step_le w a _ Hpre) as Hle.
    assert (Hpre' : unmounted_inv (step w a (run w rest boot)))
      by (apply unmounted_inv_bounded; [assumption | destruct a; simpl in *; lia]).
    destruct (is_main a) eqn:Ha.
    + destruct (idle_step w a _ Hpre Ha) as [Hs' Hm'].
      rewrite Nat.add_0_r. rewrite Hs', Hm'.
      split; [assumption|]. split; [assumption|]. split; assumption.
    + destruct a as [ev| |i]; simpl in Ha; try discriminate. injection Ha as <-.
      replace (main_steps rest + 1)%nat with (S (main_steps rest)) by lia.
      rewrite alone_snoc, run_snoc.
      destruct (step_main_congr w ev _ _ Hs Hm) as [Hs' Hm'].
      assert (Hev : step w (RunMain ev) (run w (alone (main_steps rest)) boot)
                    = step w (RunMain ServerDone) (run w (alone (main_steps rest)) boot)).
      { unfold step. destruct (exited _); [reflexivity|].
        rewrite (step_main_ignores_event w ev ServerDone) by (rewrite <- Hm; lia).
        reflexivity. }
      rewrite Hev in Hs', Hm'.
      split; [assumption|]. split; [assumption|]. split; [lia | assumption].
Qed.

End Startup2.

(** X3. Until [mounted] is swapped, the disconnect callback is invisible:
    however many times the device watcher calls it and however its steps
    fall between those of main, after main's first eleven statements or
    fewer the package variables, the effects, the state of the process and
    the place of main are exactly those of main running alone that many
    steps. *)
Theorem early_callbacks_are_invisible (w : World) (schedule : list Action) :
  (main_steps schedule <= 11)%nat ->
  shared (run w schedule boot) = shared (run w (alone (main_steps schedule)) boot) /\
  main (run w schedule boot) = main (run w (alone (main_steps schedule)) boot) /\
  Forall (fun h => idle_h h = true) (callbacks (run w schedule boot)).
Proof.
  intros Hsteps. destruct (early_steps w schedule Hsteps) as [Hs [Hm [_ Hpre]]].
  split; [assumption|]. split; [assumption|]. apply Hpre.
Qed.

Lemma early_callbacks_are_invisible_witness :
  (main_steps early_noise <= 11)%nat /\
  shared (run pixel early_noise boot) = shared (run pixel (alone 3) boot) /\
  callbacks (run pixel early_noise boot) = [H_Return; H_Return].
Proof.
  assert (Hsteps : (main_steps early_noise <= 11)%nat) by (vm_compute; lia).
  split; [exact Hsteps|].
  split; [apply (early_callbacks_are_invisible pixel early_noise Hsteps) | reflexivity].
Defined.

Section GoodStart.

Lemma startup_trace_S (w : World) (abs : string) (k : nat) :
  startup_trace w abs (S k) = startup_trace w abs k ++ startup_effects w abs k.
Proof.
  unfold startup_trace. rewrite seq_S, fmap_app, concat_app. simpl.
  rewrite app_nil_r. reflexivity.
Qed.

(** One statement of a successful start. *)
Lemma startup_step (w : World) (abs : string) (srv : Server) (ev : LoopEvent)
    (k : nat) :
  mountable w abs srv -> (k <= 11)%nat ->
  step_main w ev (startup_pc abs k) (startup_shared w abs srv k)
  = (startup_pc abs (S k), startup_shared w abs srv (S k)).
Proof.
  intros [[Hserial Hmountpoint Habs Hstat] Hfs Hroot Hready] Hk.
  apply String.eqb_neq in Hserial. apply String.eqb_neq in Hmountpoint.
  unfold startup_shared. rewrite startup_trace_S.
  generalize (startup_trace w abs k). intros tr.
  do 12 (destruct k as [|k]; [
    cbn [startup_pc startup_effects step_main Nat.leb];
    unfold checkValidMountpoint, startServer, fatal, emit_all, emit, set_server,
      set_mounted, terminate, CompareAndSwap;
    rewrite ?Hserial, ?Hmountpoint, ?Habs, ?Hstat, ?Hfs, ?Hroot,
      ?(select_ready w StartTimeout Hready);
    cbn [negb fold_left app server mounted unmounted trace exited snd Value Bool.eqb];
    try (destruct (ServeDebug w); cbn [negb]);
    rewrite <- ?app_assoc, ?app_nil_r; reflexivity |]).
  lia.
Qed.

Lemma alone_run (w : World) (abs : string) (srv : Server) (k : nat) :
  mountable w abs srv -> (k <= 12)%nat ->
  shared (run w (alone k) boot) = startup_shared w abs srv k /\
  main (run w (alone k) boot) = startup_pc abs k.
Proof.
  intros Hgood. induction k as [|k IH]; intros Hk.
  - split; reflexivity.
  - destruct IH as [Hs Hm]; [lia|].
    rewrite alone_snoc, run_snoc.
    assert (Halive : exited (shared (run w (alone k) boot)) = None)
      by (rewrite Hs; reflexivity).
    destruct (step_main_state w ServerDone _ Halive) as [-> ->].
    rewrite Hs, Hm, (startup_step w abs srv ServerDone k Hgood) by lia.
    split; reflexivity.
Qed.

Lemma step_callback_keeps_server (pc : HPc) (s : Shared) :
  server (snd (step_handleDeviceDisconnected pc s)) = server s.
Proof.
  destruct s as [srv [mv] [uv] tr ex].
  destruct pc as [| | | u |]; [| | | destruct u |];
    destruct srv, mv, uv; reflexivity.
Qed.

(** From the swap of [mounted] on, nobody assigns [server]. *)
Lemma step_keeps_server (w : World) (a : Action) (st : State) :
  (12 <= rank (main st))%nat ->
  server (shared (step w a st)) = server (shared st).
Proof.
  intros Hrank. unfold step. destruct (exited (shared st)); [reflexivity|].
  destruct a as [ev| |i]; simpl; [| reflexivity |].
  - destruct st as [[srv [mv] [uv] tr ex] mpc cbs]; simpl in *.
    destruct mpc as [| | | | | | | | | | | | | | u |]; simpl in Hrank; try lia;
      [ | destruct ev as [[| |n]|] | destruct u, srv, mv, uv | ]; reflexivity.
  - destruct (callbacks st !! i) as [pc|]; [|reflexivity].
    pose proof (step_callback_keeps_server pc (shared st)) as H.
    destruct (step_handleDeviceDisconnected pc (shared st)). exact H.
Qed.

Lemma mountable_mounted (w : World) (abs : string) (srv : Server)
    (schedule : list Action) :
  mountable w abs srv -> (12 <= main_steps schedule)%nat ->
  Value (mounted (shared (run w schedule boot))) = true /\
  server (shared (run w schedule boot)) = Some srv.
Proof.
  intros Hgood. induction schedule as [|a rest IH] using rev_ind; intros Hsteps.
  - simpl in Hsteps. lia.
  - rewrite main_steps_snoc in Hsteps. rewrite run_snoc.
    destruct (Nat.le_gt_cases 12 (main_steps rest)) as [Hge | Hlt].
    + destruct (IH Hge) as [Hm Hsrv].
      split; [eapply raised_value; [apply step_raises | exact Hm]|].
      rewrite step_keeps_server; [exact Hsrv|].
      destruct (boot_phases w rest) as [Hpre | [n0 Hpost]].
      * rewrite (ui_mounted _ Hpre) in Hm. discriminate.
      * apply Hpost.
    + assert (Hn : main_steps rest = 11%nat) by (destruct a; simpl in *; lia).
      destruct a as [ev| |i]; simpl in Hsteps; try lia.
      destruct (early_steps w rest) as [Hs [Hm _]]; [lia|].
      rewrite Hn in Hs, Hm.
      destruct (alone_run w abs srv 11 Hgood) as [Hs' Hm']; [lia|].
      rewrite Hs' in Hs. rewrite Hm' in Hm.
      assert (Halive : exited (shared (run w rest boot)) = None)
        by (rewrite Hs; reflexivity).
      destruct (step_main_state w ev _ Halive) as [-> _].
      rewrite Hs, Hm, (startup_step w abs srv ev 11 Hgood) by lia.
      split; reflexivity.
Qed.

End GoodStart.

(** X4. When the configuration is valid, the file system is created,
    [nodefs.MountRoot] returns a server and that server is ready before it
    is done and before the timeout, the mount succeeds in every schedule.
    After [n] statements of main, [n] up to eleven, the package variables
    and the effects are those of the start in program order:
    [cli.Initialize], the profiler if it was asked for, the cache, the file
    system, the mount, the two goroutines, "server ready." and the
    "mounted" line; the process is alive and never exits through
    [cli.Log.Fatal]; and from the twelfth statement on [mounted] is true
    and [server] is the server that was returned. *)
Theorem mountable_world_mounts (w : World) (abs : string) (srv : Server)
    (schedule : list Action) :
  mountable w abs srv ->
  let st := run w schedule boot in
  ((main_steps schedule <= 11)%nat ->
   shared st = startup_shared w abs srv (main_steps schedule) /\
   main st = startup_pc abs (main_steps schedule)) /\
  ((12 <= main_steps schedule)%nat ->
   Value (mounted (shared st)) = true /\ server (shared st) = Some srv) /\
  (forall arg, exited (shared st) <> Some (ExitFatal arg)).
Proof.
  intros Hgood st.
  assert (Hearly : (main_steps schedule <= 11)%nat ->
            shared st = startup_shared w abs srv (main_steps schedule) /\
            main st = startup_pc abs (main_steps schedule)).
  { intros Hsteps. destruct (early_steps w schedule Hsteps) as [Hs [Hm _]].
    destruct (alone_run w abs srv (main_steps schedule) Hgood) as [Hs' Hm']; [lia|].
    unfold st. rewrite Hs, Hm. split; assumption. }
  split; [exact Hearly|].
  split; [apply (mountable_mounted w abs srv schedule Hgood)|].
  intros arg Hfatal.
  destruct (Nat.le_gt_cases (main_steps schedule) 11) as [Hle | Hgt].
  - destruct (Hearly Hle) as [Hs _]. rewrite Hs in Hfatal. discriminate.
  - destruct (mountable_mounted w abs srv schedule Hgood) as [Hm _]; [lia|].
    destruct (boot_phases w schedule) as [Hpre | [n0 Hpost]].
    + rewrite (ui_mounted _ Hpre) in Hm. discriminate.
    + destruct (mi_exit _ _ Hpost _ Hfatal) as [Hx _]. discriminate.
Qed.

Lemma mountable_world_mounts_witness :
  mountable pixel "/home/user/mnt" (FuseServer "/home/user/mnt") /\
  Value (mounted (shared (run pixel (early_noise ++ alone 9) boot))) = true /\
  server (shared (run pixel (early_noise ++ alone 9) boot))
  = Some (FuseServer "/home/user/mnt").
Proof.
  assert (Hgood : mountable pixel "/home/user/mnt" (FuseServer "/home/user/mnt")).
  { apply Build_mountable; [apply Build_valid_config | | |];
      try reflexivity; try discriminate.
    exists 20000000. repeat split; reflexivity. }
  split; [exact Hgood|].
  apply (mountable_world_mounts pixel _ _ (early_noise ++ alone 9) Hgood).
  vm_compute. lia.
Defined.

(** X5. How the process can end.  From its start, in every environment
    and every schedule, a process that is over either exited through
    [cli.Log.Fatal] before the mount (the message was the last thing it
    printed, [mounted] and [unmounted] are false, [server.Unmount()] was
    never called) or returned from main after the unmount was claimed
    ([mounted] and [unmounted] are true, the call was made at most once). *)
Theorem exit_discipline (w : World) (schedule : list Action) (x : Exit) :
  let st := run w schedule boot in
  exited (shared st) = Some x ->
  (exists arg, x = ExitFatal arg /\
     last (trace (shared st)) = Some (EvFatal arg) /\
     Value (mounted (shared st)) = false /\
     Value (unmounted (shared st)) = false /\
     unmount_calls (shared st) = 0%nat) \/
  (x = ExitReturn /\ main st = M_Done /\
     Value (mounted (shared st)) = true /\
     Value (unmounted (shared st)) = true /\
     (unmount_calls (shared st) <= 1)%nat).
Proof.
  intros st Hx. destruct (boot_phases w schedule) as [Hpre | [n0 Hpost]];
    fold st in Hpre || fold st in Hpost.
  - left. destruct Hpre as [_ Hm Hu Hcalls _ Hex _].
    destruct (Hex x Hx) as [arg [-> Hlast]]. exists arg. repeat split; assumption.
  - right. pose proof (mounted_inv_calls n0 st Hpost) as Hcalls.
    destruct Hpost as [_ Hm Hex _ _ Hfresh].
    destruct (Hex x Hx) as [-> Hdone].
    repeat split; try assumption.
    destruct (Value (unmounted (shared st))) eqn:Hu; [reflexivity|].
    destruct (Hfresh eq_refl) as [Hpast _]. rewrite Hdone in Hpast. discriminate.
Qed.

Lemma exit_discipline_witness :
  exited (shared (run pixel (mounting ++ race) boot)) = Some ExitReturn /\
  Value (unmounted (shared (run pixel (mounting ++ race) boot))) = true.
Proof.
  split; [reflexivity|].
  destruct (exit_discipline pixel (mounting ++ race) ExitReturn eq_refl)
    as [[arg [Hx _]] | [_ [_ [_ [Hu _]]]]]; [discriminate Hx | exact Hu].
Defined.

(** X6. The order in which things happen to the package variables.  In
    every state the process can reach: if [server.Unmount()] has been
    called, or a thread is about to call it, [unmounted] is true; if
    [unmounted] is true, [mounted] is true; and if [mounted] is true,
    [server] is not nil. *)
Theorem flags_follow_the_lifecycle (w : World) (schedule : list Action) :
  let st := run w schedule boot in
  ((1 <= unmount_calls (shared st) + pending st)%nat ->
   Value (unmounted (shared st)) = true) /\
  (Value (unmounted (shared st)) = true -> Value (mounted (shared st)) = true) /\
  (Value (mounted (shared st)) = true -> server (shared st) <> None).
Proof.
  intros st. destruct (boot_phases w schedule) as [Hpre | [n0 Hpost]];
    fold st in Hpre || fold st in Hpost.
  - destruct Hpre as [Hrank Hm Hu Hcalls Hcbs _ _].
    assert (Hpend : pending st = 0%nat).
    { unfold pending. rewrite idle_no_pending by assumption.
      destruct (main st); simpl in *; try reflexivity; lia. }
    rewrite Hm, Hu, Hcalls, Hpend.
    split; [simpl; lia|]. split; intros H; discriminate H.
  - destruct Hpost as [Hsrv Hm _ _ Hcount _].
    rewrite Hm. split; [|split; [reflexivity | intros _; assumption]].
    intros H. rewrite Hcount in H.
    destruct (Value (unmounted (shared st))); [reflexivity | simpl in H; lia].
Qed.

Section Sequential.

Lemma handleDeviceDisconnected_again (s : Shared) :
  snd (handleDeviceDisconnected (snd (handleDeviceDisconnected s)))
  = snd (handleDeviceDisconnected s).
Proof.
  destruct s as [[srv|] [[|]] [[|]] tr [x|]]; reflexivity.
Qed.

Lemma unmountServer_again (s : Shared) :
  snd (unmountServer (snd (unmountServer s))) = snd (unmountServer s).
Proof.
  destruct s as [[srv|] [[|]] [[|]] tr [x|]]; reflexivity.
Qed.

End Sequential.

(** X7. Run one after the other, the unmount path is idempotent: in any
    state, a second call of [handleDeviceDisconnected] right after the
    first changes nothing, and neither does a second call of
    [unmountServer], nor a callback that comes after [unmountServer]; so
    any number of callbacks in a row leave the state the first one left,
    with [server.Unmount()] called at most once more than before. *)
Theorem unmount_path_is_idempotent (s : Shared) :
  snd (handleDeviceDisconnected (snd (handleDeviceDisconnected s)))
  = snd (handleDeviceDisconnected s) /\
  snd (unmountServer (snd (unmountServer s))) = snd (unmountServer s) /\
  snd (handleDeviceDisconnected (snd (unmountServer s))) = snd (unmountServer s) /\
  (forall n, Nat.iter (S n) (fun x => snd (handleDeviceDisconnected x)) s
             = snd (handleDeviceDisconnected s)) /\
  (unmount_calls s <= unmount_calls (snd (handleDeviceDisconnected s))
   <= unmount_calls s + 1)%nat.
Proof.
  split; [apply handleDeviceDisconnected_again|].
  split; [apply unmountServer_again|].
  split; [destruct s as [[srv|] [[|]] [[|]] tr [x|]]; reflexivity|].
  split.
  - induction n as [|n IH]; [reflexivity|].
    change (Nat.iter (S (S n)) (fun x => snd (handleDeviceDisconnected x)) s)
      with (snd (handleDeviceDisconnected
                   (Nat.iter (S n) (fun x => snd (handleDeviceDisconnected x)) s))).
    rewrite IH. apply handleDeviceDisconnected_again.
  - destruct s as [[srv|] [[|]] [[|]] tr [x|]]; unfold unmount_calls; simpl;
      rewrite ?List.filter_app, ?length_app; simpl; lia.
Qed.

(** X8. What the unmount path does when there is something to unmount.
    With the server created, [mounted] true, [unmounted] false and the
    process alive, [handleDeviceDisconnected], left alone, goes through
    [unmountServer] to its end: it prints its own line, sets [unmounted],
    prints "unmounting...", calls [server.Unmount()] once, prints
    "unmounted." and returns; [unmountServer] called directly does the
    same without the first line.  Nothing else changes and nothing
    panics. *)
Theorem unmount_path_when_mounted (s : Shared) :
  exited s = None -> server s <> None ->
  Value (mounted s) = true -> Value (unmounted s) = false ->
  snd (handleDeviceDisconnected s)
  = {| server := server s; mounted := mounted s;
       unmounted := {| Value := true |};
       trace := trace s ++ [EvLog "device disconnected, unmounting...";
                            EvLog "unmounting..."; EvUnmount; EvLog "unmounted."];
       exited := None |} /\
  snd (unmountServer s)
  = {| server := server s; mounted := mounted s;
       unmounted := {| Value := true |};
       trace := trace s ++ [EvLog "unmounting..."; EvUnmount; EvLog "unmounted."];
       exited := None |} /\
  returned_h (fst (handleDeviceDisconnected s)) = true /\
  returned_u (fst (unmountServer s)) = true /\
  unmount_calls (snd (handleDeviceDisconnected s)) = S (unmount_calls s) /\
  unmount_calls (snd (unmountServer s)) = S (unmount_calls s).
Proof.
  destruct s as [[srv|] [[|]] [[|]] tr ex]; simpl; intros -> Hsrv Hm Hu;
    try congruence.
  unfold handleDeviceDisconnected, unmountServer, unmount_calls. simpl.
  unfold emit, set_unmounted. simpl.
  rewrite <- !app_assoc. simpl.
  rewrite !List.filter_app, !length_app. simpl.
  repeat split; lia.
Qed.

Lemma unmount_path_when_mounted_witness :
  let s := shared (run pixel mounting boot) in
  exited s = None /\ server s <> None /\
  Value (mounted s) = true /\ Value (unmounted s) = false /\
  unmount_calls (snd (handleDeviceDisconnected s)) = 1%nat.
Proof.
  intros s.
  assert (Hsrv : server s <> None) by discriminate.
  split; [reflexivity|]. split; [exact Hsrv|].
  split; [reflexivity|]. split; [reflexivity|].
  destruct (unmount_path_when_mounted s eq_refl Hsrv eq_refl eq_refl)
    as [_ [_ [_ [_ [Hcalls _]]]]].
  exact Hcalls.
Defined.

Section Leaving.

Lemma leaving_inv_step (w : World) (a : Action) (n0 n : nat) (st : State) :
  ends_loop_action a = true ->
  leaving_inv n0 n st -> leaving_inv n0 (n + is_main a) (step w a st).
Proof.
  intros Hends [Hinv Hpos Hdone].
  pose proof (mounted_inv_step w a n0 st Hinv) as Hinv'.
  assert (Hlife : exited (shared st) = None \/ exists x, exited (shared st) = Some x)
    by (destruct (exited (shared st)); eauto).
  destruct Hlife as [Halive | [x Halive]].
  2:{ rewrite (step_exited w a st x Halive) in *.
      destruct (mi_exit _ _ Hinv x Halive) as [_ Hm].
      split; [assumption | rewrite Hm; simpl; lia | assumption]. }
  assert (Hnot : main st <> M_Done).
  { intros Hm. rewrite (Hdone Hm) in Halive. discriminate. }
  destruct a as [ev| |i].
  - destruct (step_main_state w ev st Halive) as [Hs Hm].
    split; [assumption | |]; rewrite ?Hs, Hm.
    + destruct Hinv as [Hsrv Hmt _ Hrank _ _].
      destruct st as [[srv [mv] [uv] tr ex] mpc cbs]; simpl in *. subst mv.
      destruct mpc as [| | | | | | | | | | | | | | u |]; simpl in Hrank; try lia;
        [ | destruct ev as [[| |k]|]; try discriminate Hends
          | destruct u, srv, uv; try congruence
          | congruence ];
        simpl in *; lia.
    + destruct Hinv as [Hsrv Hmt _ Hrank _ _].
      destruct st as [[srv [mv] [uv] tr ex] mpc cbs]; simpl in *. subst mv.
      destruct mpc as [| | | | | | | | | | | | | | u |]; simpl in Hrank; try lia;
        [ | destruct ev as [[| |k]|]
          | destruct u, srv, uv; try congruence
          | congruence ];
        simpl; try discriminate; reflexivity.
  - simpl. rewrite Nat.add_0_r. unfold step. rewrite Halive. simpl.
    split; [unfold step in Hinv'; rewrite Halive in Hinv'; exact Hinv'
           | assumption | intros Hm; contradiction].
  - simpl. rewrite Nat.add_0_r.
    assert (Hm : main (step w (RunCallback i) st) = main st).
    { unfold step. rewrite Halive. destruct (callbacks st !! i); [|reflexivity].
      destruct (step_handleDeviceDisconnected h (shared st)). reflexivity. }
    split; [assumption | rewrite Hm; assumption | rewrite Hm; intros; contradiction].
Qed.

Lemma leaving_inv_run (w : World) (schedule : list Action) (n0 : nat) (st : State) :
  Forall (fun a => ends_loop_action a = true) schedule ->
  leaving_inv n0 0 st -> leaving_inv n0 (main_steps schedule) (run w schedule st).
Proof.
  intros Hends Hinv. induction schedule as [|a rest IH] using rev_ind.
  - exact Hinv.
  - apply Forall_app in Hends as [Hrest Ha].
    rewrite run_snoc, main_steps_snoc. apply leaving_inv_step.
    + inversion Ha; assumption.
    + apply IH, Hrest.
Qed.

End Leaving.

(** X9. Once mounted, the way out always ends.  From a state in which the
    filesystem has just been mounted, in any schedule in which main
    receives only what ends its loop (an interrupt, a kill, the server
    being done), whatever the callbacks do in between, nine steps of main
    are enough: main has returned, the process is over with a normal
    return, [unmounted] is true, and the calls of [server.Unmount()] made
    plus the callbacks cut short on their way to it are exactly one. *)
Theorem shutdown_completes (w : World) (schedule : list Action) (st0 : State) :
  just_mounted st0 ->
  Forall (fun a => ends_loop_action a = true) schedule ->
  (9 <= main_steps schedule)%nat ->
  let st := run w schedule st0 in
  main st = M_Done /\
  exited (shared st) = Some ExitReturn /\
  Value (unmounted (shared st)) = true /\
  (unmount_calls (shared st) + weight pending_h (callbacks st))%nat = 1%nat.
Proof.
  intros Hjm Hends Hsteps st.
  assert (Hstart : leaving_inv (weight is_return (callbacks st0)) 0 st0).
  { split; [apply just_mounted_inv, Hjm | simpl; lia |].
    rewrite (jm_main _ Hjm). discriminate. }
  pose proof (leaving_inv_run w schedule _ st0 Hends Hstart) as [Hinv Hpos Hdone].
  fold st in Hinv, Hpos, Hdone.
  assert (Hmain : main st = M_Done).
  { rewrite Nat.min_r in Hpos by lia.
    destruct (main st) as [| | | | | | | | | | | | | | u |]; simpl in Hpos;
      try lia; [destruct u; simpl in Hpos; lia | reflexivity]. }
  split; [exact Hmain|]. split; [apply Hdone, Hmain|].
  destruct Hinv as [_ _ _ _ Hcount Hfresh].
  assert (Hu : Value (unmounted (shared st)) = true).
  { destruct (Value (unmounted (shared st))); [reflexivity|].
    destruct (Hfresh eq_refl) as [Hpast _]. rewrite Hmain in Hpast. discriminate. }
  split; [exact Hu|].
  rewrite Hu in Hcount. unfold pending in Hcount. rewrite Hmain in Hcount.
  simpl in Hcount. exact Hcount.
Qed.

Lemma shutdown_completes_witness :
  just_mounted (run pixel mounting boot) /\
  exited (shared (run pixel (alone 9) (run pixel mounting boot))) = Some ExitReturn /\
  unmount_calls (shared (run pixel (alone 9) (run pixel mounting boot))) = 1%nat.
Proof.
  assert (Hjm : just_mounted (run pixel mounting boot)).
  { split; vm_compute; first [reflexivity | discriminate | constructor]. }
  split; [exact Hjm|].
  assert (Hends : Forall (fun a => ends_loop_action a = true) (alone 9))
    by (repeat constructor).
  assert (Hsteps : (9 <= main_steps (alone 9))%nat) by (vm_compute; lia).
  destruct (shutdown_completes pixel (alone 9) _ Hjm Hends Hsteps)
    as [_ [Hexit [_ Hcalls]]].
  split; [exact Hexit|].
  assert (Hcbs : callbacks (run pixel (alone 9) (run pixel mounting boot)) = [])
    by reflexivity.
  rewrite Hcbs in Hcalls. change (weight pending_h []) with 0%nat in Hcalls.
  rewrite Nat.add_0_r in Hcalls. exact Hcalls.
Defined.

Section Traces.

(** A step of the callback adds to the effects, leaves [server] alone,
    and calls [server.Unmount()] only from that statement. *)
Lemma step_callback_appends (pc : HPc) (s : Shared) :
  exists evs,
    trace (snd (step_handleDeviceDisconnected pc s)) = trace s ++ evs /\
    server (snd (step_handleDeviceDisconnected pc s)) = server s /\
    (In EvUnmount evs -> pc = H_Call U_Unmount).
Proof.
  destruct s as [srv [mv] [uv] tr ex].
  destruct pc as [| | | u |]; [| | | destruct u |];
    destruct srv, mv, uv; simpl; appended;
    (split; [reflexivity | simpl; intuition congruence]).
Qed.

(** A step of main adds to the effects, assigns [server] only when it
    mounts, and calls [server.Unmount()] only from that statement. *)
Lemma step_main_appends (w : World) (ev : LoopEvent) (pc : MPc) (s : Shared) :
  exists evs,
    trace (snd (step_main w ev pc s)) = trace s ++ evs /\
    (server (snd (step_main w ev pc s)) = server s \/
     exists p, In (EvMountRoot p) evs) /\
    (In EvUnmount evs -> pc = M_Deferred U_Unmount).
Proof.
  destruct s as [srv [mv] [uv] tr ex].
  destruct pc as [| | | | | | | | | | | | | | u |]; simpl;
    repeat match goal with
    | |- context [String.eqb ?a ?b] => destruct (String.eqb a b)
    | |- context [filepath_Abs ?w ?p] => destruct (filepath_Abs w p)
    | |- context [checkValidMountpoint ?w ?p] => destruct (checkValidMountpoint w p)
    | |- context [NewAdbFileSystem ?w] => destruct (NewAdbFileSystem w)
    | |- context [MountRoot ?w ?p] => destruct (MountRoot w p)
    | |- context [negb (ServeDebug ?w)] => destruct (ServeDebug w)
    | |- context [startServer ?w ?d] => unfold startServer; destruct (select w d)
    | |- context [match ?e with GotSignal _ => _ | ServerDone => _ end] => destruct e
    | |- context [match ?g with Interrupt => _ | Kill => _ | OtherSignal _ => _ end] =>
        destruct g
    end; simpl;
    try (destruct u, srv, mv, uv; simpl);
    appended;
    (split; [first [left; reflexivity | right; eexists; simpl; eauto]
            | simpl; intuition congruence]).
Qed.

Lemma step_appends (w : World) (a : Action) (st : State) :
  exists evs,
    trace (shared (step w a st)) = trace (shared st) ++ evs /\
    (server (shared (step w a st)) = server (shared st) \/
     exists p, In (EvMountRoot p) evs) /\
    (In EvUnmount evs ->
     main st = M_Deferred U_Unmount \/ exists i, callbacks st !! i = Some (H_Call U_Unmount)).
Proof.
  assert (Hnone : exists evs : list Event,
            trace (shared st) = trace (shared st) ++ evs /\
            (server (shared st) = server (shared st) \/
             exists p, In (EvMountRoot p) evs) /\
            (In EvUnmount evs ->
             main st = M_Deferred U_Unmount \/
             exists i, callbacks st !! i = Some (H_Call U_Unmount))).
  { exists []. split; [symmetry; apply app_nil_r|]. split; [left; reflexivity|].
    intros []. }
  unfold step. destruct (exited (shared st)); [exact Hnone|].
  destruct a as [ev| |i]; [| exact Hnone |].
  - destruct (step_main_appends w ev (main st) (shared st)) as [evs [Htr [Hsrv Hun]]].
    destruct (step_main w ev (main st) (shared st)). simpl in *.
    exists evs. split; [assumption|]. split; [assumption|]. intros H. left. auto.
  - destruct (callbacks st !! i) as [pc|] eqn:Hi; [|exact Hnone].
    destruct (step_callback_appends pc (shared st)) as [evs [Htr [Hsrv Hun]]].
    destruct (step_handleDeviceDisconnected pc (shared st)). simpl in *.
    exists evs. split; [assumption|]. split; [left; assumption|].
    intros H. right. exists i. rewrite Hi, (Hun H). reflexivity.
Qed.

(** A thread at [server.Unmount()] is a thread of the mounted phase. *)
Lemma at_unmount_has_server (w : World) (schedule : list Action) :
  let st := run w schedule boot in
  main st = M_Deferred U_Unmount \/
  (exists i, callbacks st !! i = Some (H_Call U_Unmount)) ->
  server (shared st) <> None.
Proof.
  intros st Hat. destruct (boot_phases w schedule) as [Hpre | [n0 Hpost]];
    fold st in Hpre || fold st in Hpost; [exfalso | apply Hpost].
  destruct Hpre as [Hrank _ _ _ Hcbs _ _]. destruct Hat as [Hm | [i Hi]].
  - rewrite Hm in Hrank. simpl in Hrank. lia.
  - pose proof (Forall_lookup_1 _ _ _ _ Hcbs Hi) as Hidle. discriminate Hidle.
Qed.

Lemma mounted_trace (w : World) (schedule : list Action) :
  let st := run w schedule boot in
  mount_before_unmount (trace (shared st)) /\
  (server (shared st) <> None ->
   exists j p, trace (shared st) !! j = Some (EvMountRoot p)).
Proof.
  induction schedule as [|a rest IH] using rev_ind.
  - simpl. split; [intros i Hi; destruct i; discriminate Hi | congruence].
  - destruct IH as [Horder Hmount]. rewrite run_snoc. cbv zeta.
    set (st := run w rest boot) in *.
    destruct (step_appends w a st) as [evs [Htr [Hsrv Hun]]].
    rewrite Htr.
    assert (Hmount' : server (shared (step w a st)) <> None ->
              exists j p, (trace (shared st) ++ evs) !! j = Some (EvMountRoot p)).
    { intros Hs. destruct Hsrv as [Hsame | [p Hp]].
      - rewrite Hsame in Hs. destruct (Hmount Hs) as [j [p Hj]].
        exists j, p. apply lookup_app_l_Some. exact Hj.
      - apply list_elem_of_In, list_elem_of_lookup_1 in Hp as [j Hj].
        exists (length (trace (shared st)) + j)%nat, p.
        rewrite lookup_app_r by lia.
        replace (length (trace (shared st)) + j - length (trace (shared st)))%nat
          with j by lia.
        exact Hj. }
    split; [|exact Hmount'].
    intros i Hi.
    destruct (Nat.lt_ge_cases i (length (trace (shared st)))) as [Hlt | Hge].
    + rewrite lookup_app_l in Hi by exact Hlt.
      destruct (Horder i Hi) as [j [p [Hji Hj]]].
      exists j, p. split; [exact Hji | apply lookup_app_l_Some; exact Hj].
    + rewrite lookup_app_r in Hi by exact Hge.
      assert (Hin : In EvUnmount evs).
      { apply list_elem_of_In. eapply list_elem_of_lookup_2. exact Hi. }
      pose proof (at_unmount_has_server w rest (Hun Hin)) as Hs.
      destruct (Hmount Hs) as [j [p Hj]].
      exists j, p. split; [|apply lookup_app_l_Some; exact Hj].
      apply lookup_lt_Some in Hj. lia.
Qed.

End Traces.

(** X10. [server.Unmount()] is never called on a filesystem that was not
    mounted: in the effects of every run, from the start of the process,
    in every environment and every schedule, each call of
    [server.Unmount()] comes after a call of [nodefs.MountRoot]. *)
Theorem unmount_only_after_mount (w : World) (schedule : list Action) :
  mount_before_unmount (trace (shared (run w schedule boot))).
Proof. apply (mounted_trace w schedule). Qed.

Section Waiting.

Lemma waiting_step (w : World) (a : Action) (n0 : nat) (st : State) :
  keeps_looping a = true ->
  mounted_inv n0 st -> main st = M_Notify \/ main st = M_Select ->
  main (step w a st) = M_Notify \/ main (step w a st) = M_Select.
Proof.
  intros Hkeeps Hinv Hmain. unfold step.
  destruct (exited (shared st)); [assumption|].
  destruct a as [ev| |i]; simpl; [| assumption |].
  - destruct ev as [[| |k]|]; simpl in Hkeeps; try discriminate.
    destruct Hmain as [-> | ->]; simpl; auto.
  - destruct (callbacks st !! i) as [pc|]; [|assumption].
    destruct (step_handleDeviceDisconnected pc (shared st)). assumption.
Qed.

Lemma waiting_run (w : World) (schedule : list Action) (n0 : nat) (st : State) :
  Forall (fun a => keeps_looping a = true) schedule ->
  mounted_inv n0 st -> main st = M_Notify \/ main st = M_Select ->
  main (run w schedule st) = M_Notify \/ main (run w schedule st) = M_Select.
Proof.
  intros Hkeeps Hinv Hmain. induction schedule as [|a rest IH] using rev_ind.
  - exact Hmain.
  - apply Forall_app in Hkeeps as [Hrest Ha]. rewrite run_snoc.
    eapply waiting_step.
    + inversion Ha; assumption.
    + apply mounted_inv_run, Hinv.
    + apply IH, Hrest.
Qed.

End Waiting.

(** X11. The disconnect callback never ends the process.  Once the
    filesystem is mounted, as long as main receives neither an interrupt,
    nor a kill, nor the end of the server, whatever the callbacks do
    (unmounting included) the process stays alive with main in its loop;
    a signal main did not ask for is printed and ignored. *)
Theorem callbacks_never_end_the_process (w : World) (schedule : list Action)
    (st0 : State) :
  just_mounted st0 ->
  Forall (fun a => keeps_looping a = true) schedule ->
  let st := run w schedule st0 in
  exited (shared st) = None /\
  (main st = M_Notify \/ main st = M_Select) /\
  (unmount_calls (shared st) <= 1)%nat.
Proof.
  intros Hjm Hkeeps st.
  pose proof (just_mounted_inv st0 Hjm) as Hinv0.
  pose proof (mounted_inv_run w schedule _ st0 Hinv0) as Hinv. fold st in Hinv.
  assert (Hmain : main st = M_Notify \/ main st = M_Select).
  { eapply waiting_run; [exact Hkeeps | exact Hinv0 | left; apply Hjm]. }
  split; [|split; [exact Hmain | eapply mounted_inv_calls, Hinv]].
  destruct (exited (shared st)) as [x|] eqn:Hx; [|reflexivity].
  destruct (mi_exit _ _ Hinv x Hx) as [_ Hdone].
  destruct Hmain as [H | H]; rewrite H in Hdone; discriminate.
Qed.

Lemma callbacks_never_end_the_process_witness :
  just_mounted (run pixel mounting boot) /\
  exited (shared (run pixel disconnect_only (run pixel mounting boot))) = None /\
  unmount_calls (shared (run pixel disconnect_only (run pixel mounting boot))) = 1%nat /\
  callbacks (run pixel disconnect_only (run pixel mounting boot)) = [H_Return; H_Return].
Proof.
  assert (Hjm : just_mounted (run pixel mounting boot)).
  { split; vm_compute; first [reflexivity | discriminate | constructor]. }
  split; [exact Hjm|].
  assert (Hkeeps : Forall (fun a => keeps_looping a = true) disconnect_only)
    by (repeat constructor).
  destruct (callbacks_never_end_the_process pixel disconnect_only _ Hjm Hkeeps)
    as [Halive _].
  split; [exact Halive|]. split; reflexivity.
Defined.

Section Validation.

(** A configuration is rejected or it is valid. *)
Lemma config_dichotomy (w : World) :
  invalid_config w \/ exists abs, valid_config w abs.
Proof.
  destruct (String.eqb (DeviceSerial w) "") eqn:Hserial;
    [left; left; apply String.eqb_eq; assumption|].
  destruct (String.eqb (Mountpoint w) "") eqn:Hmountpoint;
    [left; right; left; apply String.eqb_eq; assumption|].
  apply String.eqb_neq in Hserial. apply String.eqb_neq in Hmountpoint.
  destruct (filepath_Abs w (Mountpoint w)) as [err | abs] eqn:Habs;
    [left; right; right; left; exists err; exact Habs|].
  destruct (os_Stat w abs) as [err | [|]] eqn:Hstat.
  - left. right. right. right. exists abs. split; [assumption|]. left. eauto.
  - right. exists abs. split; assumption.
  - left. right. right. right. exists abs. split; [assumption|]. right. assumption.
Qed.

(** One statement of the checks of a valid configuration. *)
Lemma checks_step (w : World) (abs : string) (ev : LoopEvent) (k : nat) (tr : list Event) :
  valid_config w abs -> (k <= 4)%nat ->
  step_main w ev (startup_pc abs k)
    {| server := None; mounted := {| Value := false |};
       unmounted := {| Value := false |}; trace := tr; exited := None |}
  = (startup_pc abs (S k),
     {| server := None; mounted := {| Value := false |};
        unmounted := {| Value := false |};
        trace := tr ++ startup_effects w abs k; exited := None |}).
Proof.
  intros [Hserial Hmountpoint Habs Hstat] Hk.
  apply String.eqb_neq in Hserial. apply String.eqb_neq in Hmountpoint.
  do 5 (destruct k as [|k]; [
    cbn [startup_pc startup_effects step_main];
    unfold checkValidMountpoint, emit;
    rewrite ?Hserial, ?Hmountpoint, ?Habs, ?Hstat;
    cbn [negb server mounted unmounted trace exited];
    rewrite ?app_nil_r; reflexivity |]).
  lia.
Qed.

Lemma checks_alone (w : World) (abs : string) (k : nat) :
  valid_config w abs -> (k <= 5)%nat ->
  shared (run w (alone k) boot)
  = {| server := None; mounted := {| Value := false |};
       unmounted := {| Value := false |};
       trace := startup_trace w abs k; exited := None |} /\
  main (run w (alone k) boot) = startup_pc abs k.
Proof.
  intros Hvalid. induction k as [|k IH]; intros Hk.
  - split; reflexivity.
  - destruct IH as [Hs Hm]; [lia|].
    rewrite alone_snoc, run_snoc.
    assert (Halive : exited (shared (run w (alone k) boot)) = None)
      by (rewrite Hs; reflexivity).
    destruct (step_main_state w ServerDone _ Halive) as [-> ->].
    rewrite Hs, Hm, (checks_step w abs ServerDone k _ Hvalid) by lia.
    rewrite startup_trace_S. split; reflexivity.
Qed.

End Validation.

(** X12. The checks of main accept exactly the valid configurations.
    With a serial and a mountpoint that are not empty, a mountpoint that
    has an absolute path, exists and is a directory, in every schedule the
    first five statements of main leave the process alive, with nothing
    done but [cli.Initialize] and main at [initializeProfiler] holding the
    absolute path; and whatever the configuration, once main has taken
    exactly five steps the process is alive if and only if the
    configuration is valid. *)
Theorem checks_accept_valid_config (w : World) (schedule : list Action) :
  main_steps schedule = 5%nat ->
  let st := run w schedule boot in
  (forall abs, valid_config w abs ->
     exited (shared st) = None /\
     trace (shared st) = [EvInitialize] /\
     server (shared st) = None /\
     main st = M_Profiler abs) /\
  (exited (shared st) = None <-> exists abs, valid_config w abs).
Proof.
  intros Hsteps st.
  assert (Hvalid : forall abs, valid_config w abs ->
            exited (shared st) = None /\ trace (shared st) = [EvInitialize] /\
            server (shared st) = None /\ main st = M_Profiler abs).
  { intros abs Hv.
    destruct (early_steps w schedule) as [Hs [Hm _]]; [lia|].
    destruct (checks_alone w abs 5 Hv) as [Hs' Hm']; [lia|].
    rewrite Hsteps in Hs, Hm. unfold st. rewrite Hs, Hm, Hs', Hm'.
    repeat split. }
  split; [exact Hvalid|].
  split.
  - intros Halive. destruct (config_dichotomy w) as [Hbad | Hgood]; [|exact Hgood].
    exfalso.
    pose proof (config_inv_run w schedule Hbad) as [_ Hrank Hprog _ _ _ _ _].
    fold st in Hrank, Hprog. specialize (Hprog Halive). lia.
  - intros [abs Hv]. apply (Hvalid abs Hv).
Qed.

Lemma checks_accept_valid_config_witness :
  main_steps (early_noise ++ alone 2) = 5%nat /\
  exited (shared (run pixel (early_noise ++ alone 2) boot)) = None /\
  exited (shared (run misconfigured (early_noise ++ alone 2) boot)) <> None.
Proof.
  assert (Hsteps : main_steps (early_noise ++ alone 2) = 5%nat) by reflexivity.
  split; [exact Hsteps|].
  destruct (checks_accept_valid_config pixel (early_noise ++ alone 2) Hsteps)
    as [_ [_ Hgood]].
  destruct (checks_accept_valid_config misconfigured (early_noise ++ alone 2) Hsteps)
    as [_ [Hbad _]].
  split.
  - apply Hgood. exists "/home/user/mnt".
    apply Build_valid_config; try reflexivity; discriminate.
  - intros Halive. destruct (Hbad Halive) as [abs [_ _ Habs Hstat]].
    simpl in Habs. injection Habs as <-. simpl in Hstat. discriminate Hstat.
Defined.
(** * Proofs: the helpers of package fs *)

Import FsUtil.

Section Listing.

Lemma asFuseDirEntries_length (entries : list goadb.DirEntry) :
  length (asFuseDirEntries entries) = length entries.
Proof. unfold asFuseDirEntries. apply length_fmap. Qed.

Lemma asFuseDirEntries_lookup (entries : list goadb.DirEntry) (i : nat) :
  asFuseDirEntries entries !! i = asFuseDirEntry <$> entries !! i.
Proof. unfold asFuseDirEntries. apply list_lookup_fmap. Qed.

End Listing.

(** C7. The listing of "/foo.txt" (24 bytes, mode 0444) and "/bar.txt"
    (42 bytes, mode 0444) translates to exactly two entries, "/foo.txt"
    first and "/bar.txt" second, each with its name and a mode that is not
    zero.  For any listing the translation keeps the length and, position
    by position, the name and the mode. *)
Theorem asFuseDirEntries_two_entries :
  let fuseEntries := asFuseDirEntries [foo_txt; bar_txt] in
  length fuseEntries = 2%nat /\
  fuse.Name <$> fuseEntries !! 0%nat = Some "/foo.txt" /\
  fuse.Name <$> fuseEntries !! 1%nat = Some "/bar.txt" /\
  Forall (fun e => fuse.Mode e <> 0) fuseEntries /\
  (forall entries : list goadb.DirEntry,
     length (asFuseDirEntries entries) = length entries /\
     forall i entry, entries !! i = Some entry ->
       exists e, asFuseDirEntries entries !! i = Some e /\
                 fuse.Name e = goadb.Name entry /\
                 fuse.Mode e = goadb.Mode entry).
Proof.
  intros fuseEntries.
  split; [reflexivity|]. split; [reflexivity|]. split; [reflexivity|].
  split; [repeat constructor; discriminate|].
  intros entries. split; [apply asFuseDirEntries_length|].
  intros i entry Hi. exists (asFuseDirEntry entry).
  rewrite asFuseDirEntries_lookup, Hi. repeat split.
Qed.

Section Summary.

Lemma summary_of_not_bytes (v : Any) : is_bytes (summary_of v) = false.
Proof. destruct v; reflexivity. Qed.

Lemma summary_of_other (v : Any) : is_bytes v = false -> summary_of v = v.
Proof. destruct v; simpl; congruence || reflexivity. Qed.

(** One turn of the loop overwrites the element at [i] by its summary. *)
Lemma summarize_turn (vals : list Any) (i : nat) (v : Any) :
  vals !! i = Some v ->
  match vals !! i with
  | Some (VBytes data) => <[i := VString (placeholder (length data))]> vals
  | _ => vals
  end = <[i := summary_of v]> vals.
Proof.
  intros Hi. rewrite Hi.
  destruct v; simpl; try (symmetry; apply list_insert_id; assumption); reflexivity.
Qed.

(** The loop, [i] elements in: the elements before [i] are as the earlier
    turns left them, the others are summarised. *)
Lemma summarize_from_spec (count i : nat) (vals : list Any) :
  (i + count)%nat = length vals ->
  summarize_from i count vals = take i vals ++ (summary_of <$> drop i vals).
Proof.
  revert i vals. induction count as [|count IH]; intros i vals Hlen.
  - simpl. rewrite Nat.add_0_r in Hlen. subst i.
    rewrite firstn_all, drop_all. simpl. rewrite app_nil_r. reflexivity.
  - assert (Hlt : (i < length vals)%nat) by lia.
    destruct (lookup_lt_is_Some_2 vals i Hlt) as [v Hi].
    cbn [summarize_from]. rewrite (summarize_turn vals i v Hi).
    rewrite IH by (rewrite length_insert; lia).
    rewrite (take_S_r (<[i := summary_of v]> vals) i (summary_of v))
      by (apply list_lookup_insert_eq; assumption).
    rewrite take_insert_ge by lia.
    rewrite drop_insert_lt by lia.
    rewrite (drop_S vals v i Hi). rewrite fmap_cons.
    rewrite <- app_assoc. reflexivity.
Qed.

Lemma summarizeByteSlicesForLog_map (vals : list Any) :
  summarizeByteSlicesForLog vals = summary_of <$> vals.
Proof.
  unfold summarizeByteSlicesForLog. rewrite summarize_from_spec by reflexivity.
  reflexivity.
Qed.

End Summary.

(** C8. For every slice of logged values, [summarizeByteSlicesForLog]
    leaves the slice at its length, puts at the position of each byte
    slice of [n] bytes the string "[]byte(n)", and leaves every other
    element as it was at its position; no byte slice is left in the
    result.  On the values of the test, "foo", the bytes of "bar" and 42,
    the result is "foo", "[]byte(3)" and 42. *)
Theorem summarizeByteSlicesForLog_placeholders (vals : list Any) :
  let summary := summarizeByteSlicesForLog vals in
  length summary = length vals /\
  (forall i data, vals !! i = Some (VBytes data) ->
     summary !! i = Some (VString ("[]byte(" +:+ pretty (length data) +:+ ")"))) /\
  (forall i v, vals !! i = Some v -> is_bytes v = false -> summary !! i = Some v) /\
  Forall (fun v => is_bytes v = false) summary /\
  summarizeByteSlicesForLog
    [VString "foo"; VBytes [Byte.x62; Byte.x61; Byte.x72]; VInt 42]
  = [VString "foo"; VString "[]byte(3)"; VInt 42].
Proof.
  intros summary. unfold summary. rewrite summarizeByteSlicesForLog_map.
  split; [apply length_fmap|].
  split; [intros i data Hi; rewrite list_lookup_fmap, Hi; reflexivity|].
  split.
  { intros i v Hi Hv. rewrite list_lookup_fmap, Hi. simpl.
    rewrite summary_of_other by assumption. reflexivity. }
  split; [|vm_compute; reflexivity].
  apply Forall_fmap. apply Forall_forall. intros v _. apply summary_of_not_bytes.
Qed.

Section Logging.

Context {F : Type} `{File F}.

(** The wrapper hands back what the wrapped call returned, leaves the
    wrapped handle as the call left it, and adds one record. *)
Lemma logged_spec {R : Type} (name : string) (arguments : list Any)
    (show : R -> list Any) (call : F -> R * F) (lf : LoggingFile F) :
  fst (logged name arguments show call lf) = fst (call (wrapped lf)) /\
  wrapped (snd (logged name arguments show call lf)) = snd (call (wrapped lf)) /\
  exists e,
    entries (snd (logged name arguments show call lf)) = entries lf ++ [e] /\
    operation e = name /\
    args e = Sprint (summarizeByteSlicesForLog arguments) /\
    results e = Sprint (summarizeByteSlicesForLog (show (fst (call (wrapped lf))))) /\
    exists d, time e = render_elapsed d.
Proof.
  unfold logged. destruct (call (wrapped lf)) as [result inner]. simpl.
  split; [reflexivity|]. split; [reflexivity|].
  eexists. split; [reflexivity|]. simpl. repeat split. eexists. reflexivity.
Qed.

Lemma Sprint_not_empty (vals : list Any) : Sprint vals <> "".
Proof. unfold Sprint. simpl. discriminate. Qed.

Lemma render_elapsed_not_empty (d : Z) : render_elapsed d <> "".
Proof. unfold render_elapsed. destruct (pretty d); simpl; discriminate. Qed.

End Logging.

(** C6. Every operation of the logging wrapper returns exactly what the
    same operation of the wrapped handle returns, and leaves the wrapped
    handle in the state that operation leaves it in.  In particular an
    [Fsync] that fails on the wrapped handle fails with the same status on
    the wrapper; on the data file of the test that status is [ENOSYS]. *)
Theorem logging_file_preserves_results (F : Type) (impl : File F)
    (lf : LoggingFile F) :
  (forall n off, fst (Read n off lf) = fst (Read n off (wrapped lf)) /\
                 wrapped (snd (Read n off lf)) = snd (Read n off (wrapped lf))) /\
  (forall data off, fst (Write data off lf) = fst (Write data off (wrapped lf)) /\
                    wrapped (snd (Write data off lf)) = snd (Write data off (wrapped lf))) /\
  (forall flags, fst (Flock flags lf) = fst (Flock flags (wrapped lf)) /\
                 wrapped (snd (Flock flags lf)) = snd (Flock flags (wrapped lf))) /\
  (fst (Flush lf) = fst (Flush (wrapped lf)) /\
   wrapped (snd (Flush lf)) = snd (Flush (wrapped lf))) /\
  (fst (Release lf) = fst (Release (wrapped lf)) /\
   wrapped (snd (Release lf)) = snd (Release (wrapped lf))) /\
  (forall flags, fst (Fsync flags lf) = fst (Fsync flags (wrapped lf)) /\
                 wrapped (snd (Fsync flags lf)) = snd (Fsync flags (wrapped lf))) /\
  (forall size, fst (Truncate size lf) = fst (Truncate size (wrapped lf)) /\
                wrapped (snd (Truncate size lf)) = snd (Truncate size (wrapped lf))) /\
  (forall uid gid, fst (Chown uid gid lf) = fst (Chown uid gid (wrapped lf)) /\
                   wrapped (snd (Chown uid gid lf)) = snd (Chown uid gid (wrapped lf))) /\
  (forall perms, fst (Chmod perms lf) = fst (Chmod perms (wrapped lf)) /\
                 wrapped (snd (Chmod perms lf)) = snd (Chmod perms (wrapped lf))) /\
  (forall off size mode,
     fst (Allocate off size mode lf) = fst (Allocate off size mode (wrapped lf)) /\
     wrapped (snd (Allocate off size mode lf))
     = snd (Allocate off size mode (wrapped lf))) /\
  (forall flags,
     fuse.Ok (fst (Fsync flags (wrapped lf))) = false ->
     fuse.Ok (fst (Fsync flags lf)) = false /\
     fst (Fsync flags lf) = fst (Fsync flags (wrapped lf))) /\
  (forall c, fst (Fsync 42 (newLoggingFile {| data := [] |} c)) = fuse.ENOSYS /\
             fuse.Ok (fst (Fsync 42 (newLoggingFile {| data := [] |} c))) = false).
Proof.
  do 10 (split; [intros; split; apply (logged_spec (F := F))|]).
  split.
  - intros flags Hfail.
    assert (Hsame : fst (Fsync flags lf) = fst (Fsync flags (wrapped lf)))
      by apply (logged_spec (F := F)).
    rewrite Hsame. split; [assumption | reflexivity].
  - intros c. split; reflexivity.
Qed.

Lemma logging_file_preserves_results_witness :
  fuse.Ok (fst (Fsync 42 (wrapped (newLoggingFile {| data := [] |}
                                     {| reading := fun _ => 0; ticks := 0 |})))) = false /\
  fuse.Ok (fst (Fsync 42 (newLoggingFile {| data := [] |}
                            {| reading := fun _ => 0; ticks := 0 |}))) = false.
Proof.
  split; [reflexivity|].
  destruct (logging_file_preserves_results DataFile DataFile_File
              (newLoggingFile {| data := [] |} {| reading := fun _ => 0; ticks := 0 |}))
    as (_ & _ & _ & _ & _ & _ & _ & _ & _ & _ & Hfail & _).
  apply Hfail. reflexivity.
Defined.

(** C9. [Fsync(42)] on a wrapped handle, whatever the handle and the
    clock, appends exactly one record to the log: its operation is
    "Fsync", its arguments read "[42]", and neither its result nor its
    elapsed time is empty.  On a fresh wrapper that record is the whole
    log. *)
Theorem logging_file_fsync_record (F : Type) (impl : File F) (lf : LoggingFile F) :
  (exists e,
     entries (snd (Fsync 42 lf)) = entries lf ++ [e] /\
     operation e = "Fsync" /\
     args e = "[42]" /\
     results e <> "" /\
     time e <> "") /\
  (forall (file : F) (c : Clock),
     length (entries (snd (Fsync 42 (newLoggingFile file c)))) = 1%nat).
Proof.
  split.
  - destruct (logged_spec (F := F) "Fsync" [VInt 42] show_status (Fsync 42) lf)
      as [_ [_ [e [He [Hop [Hargs [Hres [d Htime]]]]]]]].
    exists e. split; [exact He|]. split; [exact Hop|].
    split; [rewrite Hargs; vm_compute; reflexivity|].
    split; [rewrite Hres; apply Sprint_not_empty|].
    rewrite Htime. apply render_elapsed_not_empty.
  - intros file c.
    destruct (logged_spec (F := F) "Fsync" [VInt 42] show_status (Fsync 42)
                (newLoggingFile file c))
      as [_ [_ [e [He _]]]].
    change (entries (snd (Fsync 42 (newLoggingFile file c)))) with
      (entries (snd (logged "Fsync" [VInt 42] show_status (Fsync 42)
                       (newLoggingFile file c)))).
    rewrite He. reflexivity.
Qed.

Example fsync_record_of_the_test :
  entries (snd (Fsync 42 (newLoggingFile {| data := [] |}
                            {| reading := fun n => Z.of_nat n * 1500; ticks := 0 |})))
  = [ {| operation := "Fsync"; args := "[42]"; results := "[38]"; time := "1500ns" |} ].
Proof. vm_compute. reflexivity. Qed.
